(** * The Cocoa table widget adapter of toga, and its properties

  A shallow embedding of [src/cocoa/toga_cocoa/widgets/table.py]: the
  [TogaTable] data source and delegate methods and the [Table] adapter,
  over an explicit store of Python and Objective-C objects. *)

From Stdlib Require Import Ascii.
From stdpp Require Import gmap strings list fin_maps sorting pretty.

Set Warnings "-register-all".

Open Scope Z_scope.

(** * The program *)

(** ** Python values *)

(** The values a row attribute, a missing value or a tuple component can hold.
    An object of a class this file does not know is described by what the
    code asks of it: its [str()] and [repr()] forms, its [icon] attribute when
    it has one, and its [bind] method when it has one (the argument of [bind]
    is the factory). [VImpl] is the dict this file attaches to a row as
    [_impl], which [getattr(data_row, "_impl")] reads back: its items, column
    identifier and [TogaData] object (an address), in insertion order. *)
Inductive value : Type :=
| VNone
| VBool (b : bool)
| VInt (z : Z)
| VStr (s : string)
| VTuple (vs : list value)
| VObj (str_form repr_form : string) (icon : option value)
       (bind : option (nat → value))
| VImpl (items : list (string * nat)).

Module PyStr.

Definition quote : ascii := Ascii.ascii_of_nat 39.
Definition dquote : ascii := Ascii.ascii_of_nat 34.
Definition backslash : ascii := Ascii.ascii_of_nat 92.

Fixpoint contains (c : ascii) (s : string) : bool :=
  match s with
  | EmptyString => false
  | String a s' => if Ascii.eqb a c then true else contains c s'
  end.

Definition hex_digit (n : N) : ascii :=
  Ascii.ascii_of_N (if (n <? 10)%N then 48 + n else 87 + n)%N.

(** One character of a [repr] of a [str], between quotes [q]. The text is
    taken as bytes: the control characters of ASCII are escaped, and what
    lies outside ASCII is left as it is (Python escapes the characters of it
    that are not printable). *)
Definition escape (q c : ascii) : string :=
  let n := Ascii.N_of_ascii c in
  if Ascii.eqb c q || Ascii.eqb c backslash then String backslash (String c EmptyString)
  else if (n =? 10)%N then String backslash "n"
  else if (n =? 13)%N then String backslash "r"
  else if (n =? 9)%N then String backslash "t"
  else if (n <? 32)%N || (n =? 127)%N then
    String backslash (String "x"%char (String (hex_digit (n / 16)) (String (hex_digit (n mod 16)) EmptyString)))
  else String c EmptyString.

Fixpoint escape_all (q : ascii) (s : string) : string :=
  match s with
  | EmptyString => EmptyString
  | String c s' => escape q c +:+ escape_all q s'
  end.

(** [repr] of a [str]: single quotes, unless the text has a single quote
    and no double quote. *)
Definition repr_str (s : string) : string :=
  let q := if contains quote s && negb (contains dquote s) then dquote else quote in
  String q (escape_all q s) +:+ String q EmptyString.

Definition str_int (z : Z) : string := pretty z.

Definition str_bool (b : bool) : string := if b then "True" else "False".

Fixpoint join (sep : string) (l : list string) : string :=
  match l with
  | [] => EmptyString
  | [x] => x
  | x :: l' => x +:+ sep +:+ join sep l'
  end.

Definition str_tuple (items : list string) : string :=
  match items with
  | [x] => "(" +:+ x +:+ ",)"
  | _ => "(" +:+ join ", " items +:+ ")"
  end.

(** A native object is shown by its address: the text the runtime gives for
    it holds a memory address, which the store does not have. *)
Definition repr_object (a : nat) : string := "<TogaData#" +:+ pretty a +:+ ">".

Definition str_dict (items : list string) : string :=
  "{" +:+ join ", " items +:+ "}".

Fixpoint repr (v : value) : string :=
  match v with
  | VNone => "None"
  | VBool b => str_bool b
  | VInt z => str_int z
  | VStr s => repr_str s
  | VTuple vs => str_tuple (map repr vs)
  | VObj _ r _ _ => r
  | VImpl items => str_dict (map (λ p, repr_str p.1 +:+ ": " +:+ repr_object p.2) items)
  end.

(** [str(value)] *)
Definition str (v : value) : string :=
  match v with
  | VStr s => s
  | VObj s _ _ _ => s
  | _ => repr v
  end.

End PyStr.

(** ** Objects and the store *)

(** An Objective-C string made from a Python [str] by [at]; [str()] gives the
    text back, and two of them are equal when their texts are. *)
Inductive NSString := at_ (s : string).

Definition str_of (i : NSString) : string := let 'at_ s := i in s.

Global Instance NSString_eq_dec : EqDecision NSString.
Proof. solve_decision. Defined.

(** A native column: the object (its address) and the identifier it was
    initialised with. What is assigned to it afterwards, the header text and
    the data cell, is kept in the store under its address. *)
Record NSTableColumn := { address : nat; identifier : NSString }.

(** [==] on two native objects. *)
Definition same_object (c1 c2 : NSTableColumn) : bool :=
  bool_decide (address c1 = address c2).

(** A row of the data source: its attributes by accessor, and the [_impl]
    attribute this adapter attaches to it, a dict from column identifier to
    the address of a [TogaData] object. *)
Record Row := { attrs : gmap string value; _impl : option (list (string * nat)) }.

(** The dict of [_impl]: its items in insertion order, no key twice.
    [d[k]] and [d[k] = x]; a key that is there keeps its place. *)
Fixpoint dict_get (d : list (string * nat)) (k : string) : option nat :=
  match d with
  | [] => None
  | (k', x) :: d' => if decide (k' = k) then Some x else dict_get d' k
  end.

Fixpoint dict_set (k : string) (x : nat) (d : list (string * nat)) : list (string * nat) :=
  match d with
  | [] => [(k, x)]
  | (k', y) :: d' => if decide (k' = k) then (k', x) :: d' else (k', y) :: dict_set k x d'
  end.

(** [getattr(row, name)], when the row has the attribute: [_impl] is the slot
    of the dict, every other name an attribute of the data. *)
Definition row_getattr (row : Row) (name : string) : option value :=
  if decide (name = "_impl") then VImpl <$> _impl row else attrs row !! name.

(** The [attrs] dict of a [TogaData]. *)
Record Attrs := { label : string; icon : value }.

(** What reading [interface.missing_value] does: it gives the configured
    value, or raises [ValueError(message, value)]. *)
Inductive MissingValue :=
| Configured (v : value)
| Unconfigured (message : string) (v : value).

(** [interface._selection]: [None], one row, or a list of rows. *)
Inductive Selection :=
| SelNone
| SelRow (r : nat)
| SelRows (rs : list nat).

Inductive Size := at_least (v : Z).

(** The toolkit-independent table widget, as far as this file reads and
    writes it. [data] is [None] or a sequence of rows (addresses). *)
Record Interface := {
  data : option (list nat);
  headings : list string;
  _accessors : list string;
  multiple_select : bool;
  missing_value : MissingValue;
  on_select : option string;
  _selection : Selection;
  factory : nat;
  MIN_WIDTH : Z;
  MIN_HEIGHT : Z;
  intrinsic_width : option Size;
  intrinsic_height : option Size
}.

Inductive NSTableViewColumnAutoresizingStyle := Uniform.

Inductive NSBorderType := NSBezelBorder.

(** The one table view of the adapter, when a field refers to it. *)
Inductive ObjectRef := the_table.

(** The native table view ([self.table], and [self] in [TogaTable]). *)
Record TogaTable := {
  tableColumns : list NSTableColumn;
  selectedRowIndexes : gset N;
  selectedRow : Z;
  allowsMultipleSelection : bool;
  columnAutoresizingStyle : option NSTableViewColumnAutoresizingStyle;
  delegate : option ObjectRef;
  dataSource : option ObjectRef
}.

(** The scroll view the table view is put in ([self.native]). *)
Record NSScrollView := {
  hasVerticalScroller : bool;
  hasHorizontalScroller : bool;
  autohidesScrollers : bool;
  borderType : option NSBorderType;
  documentView : option ObjectRef
}.

(** The adapter's own fields. *)
Record Table := {
  columns : list NSTableColumn;
  column_identifiers : gmap string NSString
}.

(** *** Exceptions *)

Inductive exn_class := AttributeError | KeyError | IndexError | ValueError | TypeError.

Global Instance exn_class_eq_dec : EqDecision exn_class.
Proof. solve_decision. Defined.

Record exn := Exn { class : exn_class; args : list value }.

Inductive outcome (A : Type) : Type :=
| Return (a : A)
| Raise (e : exn).
Arguments Return {A} a.
Arguments Raise {A} e.

(** What the code sends out: messages to the native table view, a line on
    standard output, a call of the selection handler. *)
Inductive Event :=
| reloadData
| sizeToFit
| scrollRowToVisible (row : Z)
| add_constraints
| print (line : string)
| call_on_select (handler : string) (row : option nat).

(** The store. Its last field is no state: it is Python's [str.format], for
    a message and the two arguments the data source method passes, the row
    index and the column identifier: the line, or the exception that an
    ill-formed message raises. The builtin is taken as it is. *)
Record World := {
  interface : Interface;
  rows : gmap nat Row;
  native : NSScrollView;
  table : TogaTable;
  impl : Table;
  datum_attrs : gmap nat Attrs;
  headerCell_stringValue : gmap nat string;
  dataCell : gmap nat nat;
  allocated : nat;
  events : list Event;
  str_format : string → Z → string → outcome string
}.

(** Every address is an object: a row that was never written has no
    attribute and no [_impl]. *)
Definition empty_row : Row := {| attrs := ∅; _impl := None |}.

Definition row_at (w : World) (r : nat) : Row := default empty_row (rows w !! r).

(** *** Field updates *)

Definition set_rows (f : gmap nat Row → gmap nat Row) (w : World) : World :=
  {| interface := interface w; rows := f (rows w); native := native w; table := table w; impl := impl w;
     datum_attrs := datum_attrs w; headerCell_stringValue := headerCell_stringValue w;
     dataCell := dataCell w; allocated := allocated w; events := events w; str_format := str_format w |}.

Definition set_interface (f : Interface → Interface) (w : World) : World :=
  {| interface := f (interface w); rows := rows w; native := native w; table := table w; impl := impl w;
     datum_attrs := datum_attrs w; headerCell_stringValue := headerCell_stringValue w;
     dataCell := dataCell w; allocated := allocated w; events := events w; str_format := str_format w |}.

Definition set_table (f : TogaTable → TogaTable) (w : World) : World :=
  {| interface := interface w; rows := rows w; native := native w; table := f (table w); impl := impl w;
     datum_attrs := datum_attrs w; headerCell_stringValue := headerCell_stringValue w;
     dataCell := dataCell w; allocated := allocated w; events := events w; str_format := str_format w |}.

Definition set_impl (f : Table → Table) (w : World) : World :=
  {| interface := interface w; rows := rows w; native := native w; table := table w; impl := f (impl w);
     datum_attrs := datum_attrs w; headerCell_stringValue := headerCell_stringValue w;
     dataCell := dataCell w; allocated := allocated w; events := events w; str_format := str_format w |}.

Definition set_datum_attrs (f : gmap nat Attrs → gmap nat Attrs) (w : World) : World :=
  {| interface := interface w; rows := rows w; native := native w; table := table w; impl := impl w;
     datum_attrs := f (datum_attrs w); headerCell_stringValue := headerCell_stringValue w;
     dataCell := dataCell w; allocated := allocated w; events := events w; str_format := str_format w |}.

Definition set_headerCell_stringValue (f : gmap nat string → gmap nat string) (w : World) : World :=
  {| interface := interface w; rows := rows w; native := native w; table := table w; impl := impl w;
     datum_attrs := datum_attrs w; headerCell_stringValue := f (headerCell_stringValue w);
     dataCell := dataCell w; allocated := allocated w; events := events w; str_format := str_format w |}.

Definition set_dataCell (f : gmap nat nat → gmap nat nat) (w : World) : World :=
  {| interface := interface w; rows := rows w; native := native w; table := table w; impl := impl w;
     datum_attrs := datum_attrs w; headerCell_stringValue := headerCell_stringValue w;
     dataCell := f (dataCell w); allocated := allocated w; events := events w; str_format := str_format w |}.

Definition set_allocated (f : nat → nat) (w : World) : World :=
  {| interface := interface w; rows := rows w; native := native w; table := table w; impl := impl w;
     datum_attrs := datum_attrs w; headerCell_stringValue := headerCell_stringValue w;
     dataCell := dataCell w; allocated := f (allocated w); events := events w; str_format := str_format w |}.

Definition emit (e : Event) (w : World) : World :=
  {| interface := interface w; rows := rows w; native := native w; table := table w; impl := impl w;
     datum_attrs := datum_attrs w; headerCell_stringValue := headerCell_stringValue w;
     dataCell := dataCell w; allocated := allocated w; events := events w ++ [e]; str_format := str_format w |}.

Definition set__selection (s : Selection) (i : Interface) : Interface :=
  {| data := data i; headings := headings i; _accessors := _accessors i;
     multiple_select := multiple_select i; missing_value := missing_value i;
     on_select := on_select i; _selection := s; factory := factory i;
     MIN_WIDTH := MIN_WIDTH i; MIN_HEIGHT := MIN_HEIGHT i;
     intrinsic_width := intrinsic_width i; intrinsic_height := intrinsic_height i |}.

Definition set_intrinsic_width (s : Size) (i : Interface) : Interface :=
  {| data := data i; headings := headings i; _accessors := _accessors i;
     multiple_select := multiple_select i; missing_value := missing_value i;
     on_select := on_select i; _selection := _selection i; factory := factory i;
     MIN_WIDTH := MIN_WIDTH i; MIN_HEIGHT := MIN_HEIGHT i;
     intrinsic_width := Some s; intrinsic_height := intrinsic_height i |}.

Definition set_intrinsic_height (s : Size) (i : Interface) : Interface :=
  {| data := data i; headings := headings i; _accessors := _accessors i;
     multiple_select := multiple_select i; missing_value := missing_value i;
     on_select := on_select i; _selection := _selection i; factory := factory i;
     MIN_WIDTH := MIN_WIDTH i; MIN_HEIGHT := MIN_HEIGHT i;
     intrinsic_width := intrinsic_width i; intrinsic_height := Some s |}.

Definition set_tableColumns (f : list NSTableColumn → list NSTableColumn) (t : TogaTable) : TogaTable :=
  {| tableColumns := f (tableColumns t); selectedRowIndexes := selectedRowIndexes t;
     selectedRow := selectedRow t; allowsMultipleSelection := allowsMultipleSelection t;
     columnAutoresizingStyle := columnAutoresizingStyle t; delegate := delegate t;
     dataSource := dataSource t |}.

Definition set_columns (f : list NSTableColumn → list NSTableColumn) (t : Table) : Table :=
  {| columns := f (columns t); column_identifiers := column_identifiers t |}.

Definition set_column_identifiers (f : gmap string NSString → gmap string NSString) (t : Table) : Table :=
  {| columns := columns t; column_identifiers := f (column_identifiers t) |}.

(** ** The monad of a method body *)

(** A method body: it changes the store and returns or raises; what it
    changed before raising stays changed. *)
Definition M (A : Type) : Type := World → World * outcome A.

Global Instance M_ret : MRet M := λ A a w, (w, Return a).

Global Instance M_bind : MBind M := λ A B f m w,
  match m w with
  | (w', Return a) => f a w'
  | (w', Raise e) => (w', Raise e)
  end.

Definition raise {A} (c : exn_class) (a : list value) : M A :=
  λ w, (w, Raise (Exn c a)).

Definition get : M World := λ w, (w, Return w).

Definition modify (f : World → World) : M unit := λ w, (f w, Return tt).

(** [try: body except c as e: handler e] *)
Definition try_except {A} (body : M A) (c : exn_class) (handler : exn → M A) : M A :=
  λ w,
    match body w with
    | (w', Raise e) => if decide (class e = c) then handler e w' else (w', Raise e)
    | r => r
    end.

(** ** Builtins and native primitives *)

(** [l[i]] on a Python sequence: a negative index counts from the end. *)
Definition list_getitem {A} (l : list A) (i : Z) : option A :=
  if 0 <=? i then l !! Z.to_nat i
  else if - Z.of_nat (length l) <=? i then l !! Z.to_nat (Z.of_nat (length l) + i)
  else None.

(** [l.remove(x)] on a list of native objects: the first item equal to [x]
    goes; [None] stands for the [ValueError] of a list without it. *)
Fixpoint list_remove (x : NSTableColumn) (l : list NSTableColumn) : option (list NSTableColumn) :=
  match l with
  | [] => None
  | y :: l' => if same_object y x then Some l' else (y ::.) <$> list_remove x l'
  end.

Module NSIndexSet.

(** [NSNotFound] is [NSIntegerMax]. *)
Definition NSNotFound : N := 9223372036854775807.

Definition least (l : list N) : option N :=
  foldr (λ x acc, Some (from_option (N.min x) x acc)) None l.

Definition firstIndex (s : gset N) : N :=
  default NSNotFound (least (elements s)).

Definition indexGreaterThanIndex (s : gset N) (i : N) : N :=
  default NSNotFound (least (elements (filter (λ j, (i < j)%N) s))).

Definition count (s : gset N) : nat := size s.

End NSIndexSet.

Module NSTableView.

(** The first column of the table whose identifier equals [i], or nil. *)
Fixpoint tableColumnWithIdentifier (i : NSString) (l : list NSTableColumn) : option NSTableColumn :=
  match l with
  | [] => None
  | c :: l' => if decide (identifier c = i) then Some c else tableColumnWithIdentifier i l'
  end.

(** Taking a column out of the table; nothing happens for nil or for a
    column that is not in the table. *)
Definition removeTableColumn (c : option NSTableColumn) (l : list NSTableColumn) : list NSTableColumn :=
  match c with
  | None => l
  | Some c => default l (list_remove c l)
  end.

Definition addTableColumn (c : NSTableColumn) (l : list NSTableColumn) : list NSTableColumn :=
  l ++ [c].

End NSTableView.

(** [alloc().init()]: a new object, at an address no object has yet. *)
Definition alloc_init : M nat :=
  w ← get;
  modify (set_allocated S);;
  mret (allocated w).

(** [interface.data[i]] *)
Definition data_getitem (i : Z) : M nat :=
  w ← get;
  match data (interface w) with
  | None => raise TypeError []
  | Some l =>
      match list_getitem l i with
      | Some r => mret r
      | None => raise IndexError []
      end
  end.

(** Truth value of [interface.data]: [None] and an empty source are false. *)
Definition truthy (d : option (list nat)) : bool :=
  match d with
  | None => false
  | Some l => negb (bool_decide (length l = 0%nat))
  end.

Definition len (d : option (list nat)) : M Z :=
  match d with
  | None => raise TypeError []
  | Some l => mret (Z.of_nat (length l))
  end.

(** [data_row._impl] *)
Definition getattr__impl (data_row : nat) : M (list (string * nat)) :=
  w ← get;
  match _impl (row_at w data_row) with
  | Some d => mret d
  | None => raise AttributeError []
  end.

(** [data_row._impl = d] *)
Definition setattr__impl (data_row : nat) (d : list (string * nat)) : M unit :=
  modify (λ w, set_rows (insert data_row {| attrs := attrs (row_at w data_row); _impl := Some d |}) w).

(** [data[k]] and [data[k] = x], where [data] is the dict that
    [data_row._impl] holds: the local name and the attribute are one object. *)
Definition impl_getitem (data_row : nat) (k : string) : M nat :=
  d ← getattr__impl data_row;
  match dict_get d k with
  | Some x => mret x
  | None => raise KeyError [VStr k]
  end.

Definition impl_setitem (data_row : nat) (k : string) (x : nat) : M unit :=
  d ← getattr__impl data_row;
  setattr__impl data_row (dict_set k x d).

(** [getattr(data_row, name)] *)
Definition getattr (data_row : nat) (name : string) : M value :=
  w ← get;
  match row_getattr (row_at w data_row) name with
  | Some v => mret v
  | None => raise AttributeError []
  end.

(** [message.format(row, col_identifier)]: of a [str], what the builtin
    gives; no other value of the model has a [format]. *)
Definition call_format (message : value) (row : Z) (col_identifier : string) : M string :=
  match message with
  | VStr s => λ w, (w, str_format w s row col_identifier)
  | _ => raise AttributeError []
  end.

(** [self.interface.missing_value] *)
Definition get_missing_value : M value :=
  w ← get;
  match missing_value (interface w) with
  | Configured v => mret v
  | Unconfigured message v => raise ValueError [VStr message; v]
  end.

(** [value.icon] and [icon.bind(factory)] *)
Definition getattr_icon (v : value) : M value :=
  match v with
  | VObj _ _ (Some i) _ => mret i
  | _ => raise AttributeError []
  end.

Definition call_bind (i : value) (f : nat) : M value :=
  match i with
  | VObj _ _ _ (Some b) => mret (b f)
  | _ => raise AttributeError []
  end.

(** ** The data source and delegate methods *)

Module TogaTable.

Definition numberOfRowsInTableView_ : M Z :=
  w ← get;
  if truthy (data (interface w)) then len (data (interface w)) else mret 0.

Definition tableView_objectValueForTableColumn_row_ (column : NSTableColumn) (row : Z) : M nat :=
  data_row ← data_getitem row;
  try_except (getattr__impl data_row;; mret tt) AttributeError
    (λ _, setattr__impl data_row []);;
  let col_identifier := str_of (identifier column) in
  datum ← try_except (impl_getitem data_row col_identifier) KeyError
    (λ _, d ← alloc_init;
          impl_setitem data_row col_identifier d;;
          d' ← impl_getitem data_row col_identifier;
          impl_setitem data_row col_identifier d';;
          impl_getitem data_row col_identifier);
  value ← try_except (getattr data_row col_identifier) AttributeError
    (λ _, try_except get_missing_value ValueError
       (λ e, match args e with
             | [message; value] =>
                 line ← call_format message row col_identifier;
                 modify (emit (print line));;
                 mret value
             | _ => raise ValueError []
             end));
  '(icon, value) ←
    match value with
    | VTuple vs =>
        match vs with
        | [icon; value] => mret (icon, value)
        | _ => raise ValueError []
        end
    | _ =>
        icon ← try_except
          (w ← get; i ← getattr_icon value; call_bind i (factory (interface w)))
          AttributeError (λ _, mret VNone);
        mret (icon, value)
    end;
  modify (set_datum_attrs (insert datum {| label := PyStr.str value; icon := icon |}));;
  mret datum.

Definition selectionShouldChangeInTableView_ : M bool := mret true.

(** The loop of [tableViewSelectionDidChange_]: [n] iterations are left. *)
Fixpoint selection_loop (n : nat) (current_index : N) (selection : list nat) : M (list nat) :=
  match n with
  | O => mret selection
  | S n' =>
      r ← data_getitem (Z.of_N current_index);
      w ← get;
      selection_loop n'
        (NSIndexSet.indexGreaterThanIndex (selectedRowIndexes (table w)) current_index)
        (selection ++ [r])
  end.

(** The notification of a selection change; its [object] is the table view. *)
Inductive NSNotification := NSTableViewSelectionDidChangeNotification.

Definition tableViewSelectionDidChange_ (notification : NSNotification) : M unit :=
  w ← get;
  selection ← selection_loop
    (NSIndexSet.count (selectedRowIndexes (table w)))
    (NSIndexSet.firstIndex (selectedRowIndexes (table w))) [];
  w ← get;
  (if negb (multiple_select (interface w)) then
     match selection with
     | r :: _ => modify (set_interface (set__selection (SelRow r)))
     | [] => modify (set_interface (set__selection SelNone))
     end
   else modify (set_interface (set__selection (SelRows selection))));;
  w ← get;
  selected ←
    (if bool_decide (selectedRow (table w) = -1) then mret None
     else r ← data_getitem (selectedRow (table w)); mret (Some r));
  w ← get;
  match on_select (interface w) with
  | Some handler => modify (emit (call_on_select handler selected))
  | None => mret tt
  end.

End TogaTable.

(** ** The adapter *)

Module Table.

Definition change_source (source : option (list nat)) : M unit :=
  modify (emit reloadData).

Definition insert (index : Z) (item : nat) : M unit :=
  modify (emit reloadData).

Definition change (item : nat) : M unit :=
  modify (emit reloadData).

Definition remove (item : nat) : M unit :=
  modify (emit reloadData).

Definition clear : M unit :=
  modify (emit reloadData).

Definition set_on_select (handler : option string) : M unit :=
  mret tt.

Definition scroll_to_row (row : Z) : M unit :=
  modify (emit (scrollRowToVisible row)).

Definition rehint : M unit :=
  w ← get;
  modify (set_interface (set_intrinsic_width (at_least (MIN_WIDTH (interface w)))));;
  w ← get;
  modify (set_interface (set_intrinsic_height (at_least (MIN_HEIGHT (interface w))))).

Definition _add_column (heading accessor : string) : M unit :=
  let column_identifier := at_ accessor in
  modify (set_impl (set_column_identifiers (<[accessor := column_identifier]>)));;
  a ← alloc_init;
  let column := {| address := a; identifier := column_identifier |} in
  modify (set_table (set_tableColumns (NSTableView.addTableColumn column)));;
  modify (set_impl (set_columns (λ l, l ++ [column])));;
  cell ← alloc_init;
  modify (set_dataCell (<[address column := cell]>));;
  modify (set_headerCell_stringValue (<[address column := heading]>)).

Definition add_column (heading accessor : string) : M unit :=
  _add_column heading accessor;;
  modify (emit sizeToFit).

Definition remove_column (accessor : string) : M unit :=
  w ← get;
  column_identifier ←
    match column_identifiers (impl w) !! accessor with
    | Some i => mret i
    | None => raise KeyError [VStr accessor]
    end;
  w ← get;
  let column := NSTableView.tableColumnWithIdentifier column_identifier (tableColumns (table w)) in
  modify (set_table (set_tableColumns (NSTableView.removeTableColumn column)));;
  w ← get;
  match column ≫= λ c, list_remove c (columns (impl w)) with
  | Some l => modify (set_impl (set_columns (λ _, l)))
  | None => raise ValueError []
  end;;
  w ← get;
  match column_identifiers (impl w) !! accessor with
  | Some _ => modify (set_impl (set_column_identifiers (delete accessor)))
  | None => raise KeyError [VStr accessor]
  end;;
  modify (emit sizeToFit).

(** The columns of [create]: one [_add_column] per pair of [zip(headings,
    accessors)]. *)
Fixpoint add_columns (l : list (string * string)) : M unit :=
  match l with
  | [] => mret tt
  | (heading, accessor) :: l' => _add_column heading accessor;; add_columns l'
  end.

Definition create : M unit :=
  modify (λ w,
    {| interface := interface w; rows := rows w;
       native := {| hasVerticalScroller := true; hasHorizontalScroller := false;
                    autohidesScrollers := false; borderType := Some NSBezelBorder;
                    documentView := None |};
       table := {| tableColumns := []; selectedRowIndexes := ∅; selectedRow := -1;
                   allowsMultipleSelection := multiple_select (interface w);
                   columnAutoresizingStyle := Some Uniform;
                   delegate := None; dataSource := None |};
       impl := {| columns := []; column_identifiers := ∅ |};
       datum_attrs := datum_attrs w; headerCell_stringValue := headerCell_stringValue w;
       dataCell := dataCell w; allocated := allocated w; events := events w; str_format := str_format w |});;
  w ← get;
  add_columns (zip (headings (interface w)) (_accessors (interface w)));;
  modify (set_table (λ t,
    {| tableColumns := tableColumns t; selectedRowIndexes := selectedRowIndexes t;
       selectedRow := selectedRow t; allowsMultipleSelection := allowsMultipleSelection t;
       columnAutoresizingStyle := columnAutoresizingStyle t;
       delegate := Some the_table; dataSource := Some the_table |}));;
  modify (λ w,
    {| interface := interface w; rows := rows w;
       native := {| hasVerticalScroller := hasVerticalScroller (native w);
                    hasHorizontalScroller := hasHorizontalScroller (native w);
                    autohidesScrollers := autohidesScrollers (native w);
                    borderType := borderType (native w);
                    documentView := Some the_table |};
       table := table w; impl := impl w;
       datum_attrs := datum_attrs w; headerCell_stringValue := headerCell_stringValue w;
       dataCell := dataCell w; allocated := allocated w; events := events w; str_format := str_format w |});;
  modify (emit add_constraints).

End Table.

(** * What the methods compute *)

(** ** A call of the data source *)

(** The row that [interface.data[i]] gives, when it gives one. *)
Definition data_lookup (w : World) (i : Z) : option nat :=
  data (interface w) ≫= λ l, list_getitem l i.

(** The render object that row [r] has in its [_impl] for column [col]. *)
Definition cached (w : World) (r : nat) (col : string) : option nat :=
  _impl (row_at w r) ≫= λ d, dict_get d col.

(** The value resolved for a cell: the attribute of the row, or what the
    interface gives for a missing value. *)
Definition resolved (w : World) (r : nat) (col : string) : value :=
  match row_getattr (row_at w r) col with
  | Some v => v
  | None =>
      match missing_value (interface w) with
      | Configured v => v
      | Unconfigured _ v => v
      end
  end.

(** What formatting the diagnostic gives, when the attribute is missing and
    no missing value is configured: a line, or an exception. *)
Definition formatted (w : World) (r : nat) (row : Z) (col : string) : option (outcome string) :=
  match row_getattr (row_at w r) col, missing_value (interface w) with
  | None, Unconfigured message _ => Some (str_format w message row col)
  | _, _ => None
  end.

(** The line printed, when there is one. *)
Definition diagnostic (w : World) (r : nat) (row : Z) (col : string) : list Event :=
  match formatted w r row col with
  | Some (Return line) => [print line]
  | _ => []
  end.

(** The exception of a message that cannot be formatted. *)
Definition format_error (w : World) (r : nat) (row : Z) (col : string) : option exn :=
  match formatted w r row col with
  | Some (Raise e) => Some e
  | _ => None
  end.

(** The diagnostic of the cell, if the call has one to print, can be
    formatted: for the message of the interface, [format] returns a line. *)
Definition formats (w : World) (r : nat) (row : Z) (col : string) : Prop :=
  ∀ message v,
    attrs (row_at w r) !! col = None →
    missing_value (interface w) = Unconfigured message v →
    ∃ line, str_format w message row col = Return line.

(** The icon of a value that is not a tuple: its [icon] attribute bound to the
    factory, or [None] when an attribute is missing on the way. *)
Definition icon_of (f : nat) (v : value) : value :=
  match v with
  | VObj _ _ (Some (VObj _ _ _ (Some b))) _ => b f
  | _ => VNone
  end.

(** The icon and the value of a cell value; a tuple that is not a pair has
    none. *)
Definition split (f : nat) (v : value) : option (value * value) :=
  match v with
  | VTuple [i; v'] => Some (i, v')
  | VTuple _ => None
  | _ => Some (icon_of f v, v)
  end.

(** A cell value the method can render: anything but a tuple that is not a
    pair. *)
Definition is_cell (v : value) : bool :=
  match v with
  | VTuple [_; _] => true
  | VTuple _ => false
  | _ => true
  end.

(** The value shown for a cell value: the second component of a pair, the
    value itself otherwise. *)
Definition cell_value (v : value) : value :=
  match v with
  | VTuple [_; v'] => v'
  | _ => v
  end.

(** The icon of a cell value: the first component of a pair; otherwise the
    [icon] attribute of the value bound to the factory, and [None] when the
    value has no [icon] attribute or the attribute has no [bind]. *)
Definition cell_icon (f : nat) (v : value) : value :=
  match v with
  | VTuple [i; _] => i
  | VObj _ _ (Some (VObj _ _ _ (Some b))) _ => b f
  | _ => VNone
  end.

(** The [attrs] a call gives the render object of row [r] and column [col]. *)
Definition render (w : World) (r : nat) (col : string) : option Attrs :=
  match split (factory (interface w)) (resolved w r col) with
  | Some (i, v) => Some {| label := PyStr.str v; icon := i |}
  | None => None
  end.

(** The store once the render object of [r] and [col] is in the row's cache:
    unchanged on a hit, and on a miss with a new object, at the next free
    address, entered in the row's [_impl]. *)
Definition with_cache (w : World) (r : nat) (col : string) : World :=
  match cached w r col with
  | Some _ => w
  | None =>
      set_allocated S
        (set_rows (insert r {| attrs := attrs (row_at w r);
                               _impl := Some (dict_set col (allocated w)
                                                (default [] (_impl (row_at w r)))) |}) w)
  end.

(** The render object of [r] and [col]: the cached one, or the next object to
    be allocated. *)
Definition datum_of (w : World) (r : nat) (col : string) : nat :=
  default (allocated w) (cached w r col).

(** ** The steps of the data source method *)

(** The cache step of the data source method: the first two [try] blocks. *)
Definition cache_step (data_row : nat) (col_identifier : string) : M nat :=
  try_except (getattr__impl data_row;; mret tt) AttributeError
    (λ _, setattr__impl data_row []);;
  try_except (impl_getitem data_row col_identifier) KeyError
    (λ _, d ← alloc_init;
          impl_setitem data_row col_identifier d;;
          d' ← impl_getitem data_row col_identifier;
          impl_setitem data_row col_identifier d';;
          impl_getitem data_row col_identifier).

(** The store after the events of [l], in order. *)
Definition emit_all (l : list Event) (w : World) : World :=
  fold_left (λ w e, emit e w) l w.

(** The third [try] block: the value of the cell. *)
Definition value_step (data_row : nat) (row : Z) (col_identifier : string) : M value :=
  try_except (getattr data_row col_identifier) AttributeError
    (λ _, try_except get_missing_value ValueError
       (λ e, match args e with
             | [message; value] =>
                 line ← call_format message row col_identifier;
                 modify (emit (print line));;
                 mret value
             | _ => raise ValueError []
             end)).

(** The icon and the value of the cell: the [if isinstance(value, tuple)]. *)
Definition split_step (v : value) : M (value * value) :=
  match v with
  | VTuple vs =>
      match vs with
      | [icon; v'] => mret (icon, v')
      | _ => raise ValueError []
      end
  | _ =>
      icon ← try_except
        (w ← get; i ← getattr_icon v; call_bind i (factory (interface w)))
        AttributeError (λ _, mret VNone);
      mret (icon, v)
  end.

(** ** The selected indexes, in ascending order *)

Definition ascending (s : gset N) : list N := merge_sort N.le (elements s).

(** The indexes the loop of [tableViewSelectionDidChange_] goes through. *)
Fixpoint enumerate (s : gset N) (n : nat) (current_index : N) : list N :=
  match n with
  | O => []
  | S n' => current_index :: enumerate s n' (NSIndexSet.indexGreaterThanIndex s current_index)
  end.

(** ** What a selection change computes *)

(** Every selected index has a row in the data source. *)
Definition valid_selection (w : World) : Prop :=
  Forall (λ i, is_Some (data_lookup w (Z.of_N i))) (elements (selectedRowIndexes (table w))).

(** The rows of a list of indexes. *)
Definition rows_of (w : World) (indexes : list N) : list nat :=
  omap (λ i, data_lookup w (Z.of_N i)) indexes.

(** The selection the handler stores on the interface. *)
Definition aggregate (w : World) : Selection :=
  let selection := rows_of w (ascending (selectedRowIndexes (table w))) in
  if negb (multiple_select (interface w)) then
    match selection with
    | r :: _ => SelRow r
    | [] => SelNone
    end
  else SelRows selection.

(** The row of the toolkit's active row index: [Some None] for -1, [None]
    when the index has no row. *)
Definition active_row (w : World) : option (option nat) :=
  if bool_decide (selectedRow (table w) = -1) then Some None
  else Some <$> data_lookup w (selectedRow (table w)).

(** The call of the selection handler, when the interface has one. *)
Definition callback (w : World) (selected : option nat) : list Event :=
  match on_select (interface w) with
  | Some handler => [call_on_select handler selected]
  | None => []
  end.

(** ** Columns *)

(** The adapter holds something for the accessor: an identifier, or a column
    of that identifier in its list. *)
Definition tracked (w : World) (accessor : string) : bool :=
  bool_decide (is_Some (column_identifiers (impl w) !! accessor))
  || bool_decide (Exists (λ c, identifier c = at_ accessor) (columns (impl w))).

(** The columns of the native table are those of the adapter's list, and
    they are objects that exist. *)
Record wf (w : World) : Prop := {
  wf_sync : tableColumns (table w) = columns (impl w);
  wf_allocated : Forall (λ c, (address c < allocated w)%nat) (columns (impl w))
}.

(** The store after [_add_column]. *)
Definition with_column (heading accessor : string) (w : World) : World :=
  let column := {| address := allocated w; identifier := at_ accessor |} in
  set_headerCell_stringValue (<[allocated w := heading]>)
    (set_dataCell (<[allocated w := S (allocated w)]>)
       (set_allocated (λ n, S (S n))
          (set_impl (set_columns (λ l, l ++ [column]))
             (set_table (set_tableColumns (λ l, l ++ [column]))
                (set_impl (set_column_identifiers (<[accessor := at_ accessor]>)) w))))).

(** The store after the [_add_column] calls of [create]. *)
Definition with_columns (l : list (string * string)) (w : World) : World :=
  fold_left (λ w p, with_column p.1 p.2 w) l w.

(** ** Frame conditions *)

(** The method returns, sends [reloadData] once and changes nothing else. *)
Definition reloads_once (m : M unit) : Prop :=
  ∀ w, ∃ w',
    m w = (w', Return tt) ∧
    events w' = events w ++ [reloadData] ∧
    interface w' = interface w ∧ rows w' = rows w ∧ native w' = native w ∧
    table w' = table w ∧ impl w' = impl w ∧ datum_attrs w' = datum_attrs w ∧
    headerCell_stringValue w' = headerCell_stringValue w ∧
    dataCell w' = dataCell w ∧ allocated w' = allocated w.

(** The method leaves the adapter's columns and identifiers as they are. *)
Definition keeps_columns (m : M unit) : Prop :=
  ∀ w, columns (impl (m w).1) = columns (impl w) ∧
       column_identifiers (impl (m w).1) = column_identifiers (impl w).

(** ** Histories *)

(** The stores the adapter can be in: after [create], then after any calls
    of [add_column] and [remove_column], and after any step that leaves the
    columns of the adapter and of the native table alone and frees no
    object. *)
Inductive reachable : World → Prop :=
| reach_create w : reachable (Table.create w).1
| reach_add_column w heading accessor :
    reachable w → reachable (Table.add_column heading accessor w).1
| reach_remove_column w accessor :
    reachable w → reachable (Table.remove_column accessor w).1
| reach_step w w' :
    reachable w →
    tableColumns (table w') = tableColumns (table w) →
    columns (impl w') = columns (impl w) →
    (allocated w ≤ allocated w')%nat →
    reachable w'.

(** The stores in whose history no column was added for the accessor:
    neither by [create], from the accessors of the interface, nor by
    [add_column]. Whatever else happened (other methods of the adapter, the
    toolkit, the application) left the adapter's own fields alone. *)
Inductive never_added (accessor : string) : World → Prop :=
| never_created w :
    accessor ∉ (zip (headings (interface w)) (_accessors (interface w))).*2 →
    never_added accessor (Table.create w).1
| never_add_column w heading a :
    never_added accessor w → a ≠ accessor →
    never_added accessor (Table.add_column heading a w).1
| never_remove_column w a :
    never_added accessor w →
    never_added accessor (Table.remove_column a w).1
| never_other w w' :
    never_added accessor w → impl w' = impl w →
    never_added accessor w'.

(** ** Calls *)

(** A call of a method of this file, by the application-level widget (the
    methods of [Table]) or by the toolkit (the methods of [TogaTable]). *)
Inductive call :=
| call_change_source (source : option (list nat))
| call_insert (index : Z) (item : nat)
| call_change (item : nat)
| call_remove (item : nat)
| call_clear
| call_set_on_select (handler : option string)
| call_scroll_to_row (row : Z)
| call_rehint
| call_add_column (heading accessor : string)
| call_remove_column (accessor : string)
| call_numberOfRows
| call_objectValue (column : NSTableColumn) (row : Z)
| call_selectionShouldChange
| call_selectionDidChange.

(** The store after a call; what the call returned or raised is the
    caller's. *)
Definition perform (c : call) (w : World) : World :=
  match c with
  | call_change_source source => (Table.change_source source w).1
  | call_insert index item => (Table.insert index item w).1
  | call_change item => (Table.change item w).1
  | call_remove item => (Table.remove item w).1
  | call_clear => (Table.clear w).1
  | call_set_on_select handler => (Table.set_on_select handler w).1
  | call_scroll_to_row row => (Table.scroll_to_row row w).1
  | call_rehint => (Table.rehint w).1
  | call_add_column heading accessor => (Table.add_column heading accessor w).1
  | call_remove_column accessor => (Table.remove_column accessor w).1
  | call_numberOfRows => (TogaTable.numberOfRowsInTableView_ w).1
  | call_objectValue column row =>
      (TogaTable.tableView_objectValueForTableColumn_row_ column row w).1
  | call_selectionShouldChange => (TogaTable.selectionShouldChangeInTableView_ w).1
  | call_selectionDidChange =>
      (TogaTable.tableViewSelectionDidChange_
         TogaTable.NSTableViewSelectionDidChangeNotification w).1
  end.

Definition perform_all (cs : list call) (w : World) : World :=
  fold_left (λ w c, perform c w) cs w.

(** Every accessor of [column_identifiers] is mapped to its own identifier,
    and the adapter has a column of that identifier. *)
Definition identified (w : World) : Prop :=
  ∀ a i, column_identifiers (impl w) !! a = Some i →
         i = at_ a ∧ Exists (λ c, identifier c = i) (columns (impl w)).

(** The render objects of the caches are objects that exist, and no two
    cells share one. *)
Definition caches_ok (w : World) : Prop :=
  (∀ r col d, cached w r col = Some d → (d < allocated w)%nat) ∧
  (∀ r col r' col' d,
     cached w r col = Some d → cached w r' col' = Some d → r = r' ∧ col = col').

(** The adapter's columns are those of the native table, each a different
    object, and the identifiers are those of columns the adapter has. *)
Definition columns_ok (w : World) : Prop :=
  wf w ∧ identified w ∧ NoDup (address <$> columns (impl w)).

(** What [interface.data[i]] raises when it gives no row. *)
Definition data_error (w : World) : exn :=
  match data (interface w) with
  | None => Exn TypeError []
  | Some _ => Exn IndexError []
  end.

(** The store of [create] before its columns are added. *)
Definition before_columns (w : World) : World :=
  {| interface := interface w; rows := rows w;
     native := {| hasVerticalScroller := true; hasHorizontalScroller := false;
                  autohidesScrollers := false; borderType := Some NSBezelBorder;
                  documentView := None |};
     table := {| tableColumns := []; selectedRowIndexes := ∅; selectedRow := -1;
                 allowsMultipleSelection := multiple_select (interface w);
                 columnAutoresizingStyle := Some Uniform;
                 delegate := None; dataSource := None |};
     impl := {| columns := []; column_identifiers := ∅ |};
     datum_attrs := datum_attrs w; headerCell_stringValue := headerCell_stringValue w;
     dataCell := dataCell w; allocated := allocated w; events := events w; str_format := str_format w |}.

(** The interface with no missing value configured: reading it raises
    [ValueError(message, v)]. *)
Definition without_missing_value (message : string) (v : value) (i : Interface) : Interface :=
  {| data := data i; headings := headings i; _accessors := _accessors i;
     multiple_select := multiple_select i; missing_value := Unconfigured message v;
     on_select := on_select i; _selection := _selection i; factory := factory i;
     MIN_WIDTH := MIN_WIDTH i; MIN_HEIGHT := MIN_HEIGHT i;
     intrinsic_width := intrinsic_width i; intrinsic_height := intrinsic_height i |}.

(** * An example table *)

Definition example_icon : value :=
  VObj "<Icon ana.png>" "<Icon ana.png>" None
       (Some (λ f, VObj "<NSImage>" "<NSImage>" None None)).

Definition example_rows : gmap nat Row :=
  {[ 10%nat := {| attrs := {[ "name" := VStr "Ana" ]}; _impl := None |};
     11%nat := {| attrs := {[ "name" := VTuple [VNone; VInt 7]; "age" := VInt 41 ]};
                  _impl := None |};
     12%nat := {| attrs := {[ "name" := VTuple [VNone; VStr "Bo"; VInt 3] ]};
                  _impl := None |};
     13%nat := {| attrs := {[ "name" := VObj "Cy" "<Person Cy>" (Some example_icon) None ]};
                  _impl := None |};
     14%nat := {| attrs := {[ "name" := VStr "Di"; "age" := VInt 30 ]}; _impl := None |} ]}.

Definition example_interface (multiple : bool) : Interface :=
  {| data := Some [10; 11; 12; 13; 14]%nat;
     headings := ["Name"; "Age"]; _accessors := ["name"; "age"];
     multiple_select := multiple; missing_value := Configured (VStr "—");
     on_select := Some "on_select"; _selection := SelNone; factory := 1%nat;
     MIN_WIDTH := 100; MIN_HEIGHT := 100;
     intrinsic_width := None; intrinsic_height := None |}.

(** [str.format] on a message without replacement fields, as the messages of
    the examples are: the message itself. *)
Definition plain_format (message : string) (row : Z) (col : string) : outcome string :=
  Return message.

(** The store before [create]. *)
Definition blank (i : Interface) (rs : gmap nat Row) : World :=
  {| interface := i; rows := rs;
     native := {| hasVerticalScroller := false; hasHorizontalScroller := false;
                  autohidesScrollers := false; borderType := None; documentView := None |};
     table := {| tableColumns := []; selectedRowIndexes := ∅; selectedRow := -1;
                 allowsMultipleSelection := false; columnAutoresizingStyle := None;
                 delegate := None; dataSource := None |};
     impl := {| columns := []; column_identifiers := ∅ |};
     datum_attrs := ∅; headerCell_stringValue := ∅; dataCell := ∅;
     allocated := 0%nat; events := []; str_format := plain_format |}.

Definition example_world (multiple : bool) : World :=
  (Table.create (blank (example_interface multiple) example_rows)).1.

(** The toolkit's selection: the selected indexes and the active row. *)
Definition select (s : gset N) (active : Z) (w : World) : World :=
  set_table (λ t,
    {| tableColumns := tableColumns t; selectedRowIndexes := s; selectedRow := active;
       allowsMultipleSelection := allowsMultipleSelection t;
       columnAutoresizingStyle := columnAutoresizingStyle t;
       delegate := delegate t; dataSource := dataSource t |}) w.

Definition name_column : NSTableColumn := {| address := 0; identifier := at_ "name" |}.
Definition age_column : NSTableColumn := {| address := 2; identifier := at_ "age" |}.

(** * Proofs *)

(** ** Running method bodies *)

Ltac run :=
  repeat (cbn [mbind mret M_bind M_ret get modify raise try_except fst snd class args] in *
          || unfold mbind, mret, M_bind, M_ret, get, modify, raise, try_except in * ).

Example str_pair : PyStr.str (VTuple [VNone; VStr "Ana"]) = "(None, 'Ana')".
Proof. reflexivity. Qed.

Example str_single : PyStr.str (VTuple [VInt (-12)]) = "(-12,)".
Proof. vm_compute. reflexivity. Qed.

Lemma row_at_insert w r r' x :
  row_at (set_rows (insert r x) w) r' = if decide (r = r') then x else row_at w r'.
Proof.
  unfold row_at, set_rows. cbn. rewrite lookup_insert. by case_decide.
Qed.

Lemma row_at_set_allocated f w r : row_at (set_allocated f w) r = row_at w r.
Proof. reflexivity. Qed.

Lemma data_getitem_run w i r :
  data_lookup w i = Some r → data_getitem i w = (w, Return r).
Proof.
  unfold data_lookup, data_getitem. run.
  destruct (data (interface w)) as [l|]; cbn; [|done].
  by intros ->.
Qed.

Lemma data_getitem_fail w i :
  data_lookup w i = None → ∃ e, data_getitem i w = (w, Raise e).
Proof.
  unfold data_lookup, data_getitem. run.
  destruct (data (interface w)) as [l|]; cbn; [|by eexists].
  intros ->. by eexists.
Qed.

Section Primitives.

Context {A B : Type}.

Lemma bind_unfold (m : M A) (f : A → M B) w :
  (m ≫= f) w =
  match m w with
  | (w', Return a) => f a w'
  | (w', Raise e) => (w', Raise e)
  end.
Proof. reflexivity. Qed.

Lemma bind_return (m : M A) (f : A → M B) w w' a :
  m w = (w', Return a) → (m ≫= f) w = f a w'.
Proof. intros H. by rewrite bind_unfold, H. Qed.

Lemma bind_then (m : M A) (f : A → M B) w w' a r :
  m w = (w', Return a) → f a w' = r → (m ≫= f) w = r.
Proof. intros H <-. by apply bind_return. Qed.

Lemma bind_raise (m : M A) (f : A → M B) w w' e :
  m w = (w', Raise e) → (m ≫= f) w = (w', Raise e).
Proof. intros H. by rewrite bind_unfold, H. Qed.

Lemma try_return (m : M A) c h w w' a :
  m w = (w', Return a) → try_except m c h w = (w', Return a).
Proof. unfold try_except. by intros ->. Qed.

Lemma try_caught (m : M A) c h w w' a :
  m w = (w', Raise (Exn c a)) → try_except m c h w = h (Exn c a) w'.
Proof. unfold try_except. intros ->. cbn. by rewrite decide_True. Qed.

Lemma try_passed (m : M A) c h w w' e :
  m w = (w', Raise e) → class e ≠ c → try_except m c h w = (w', Raise e).
Proof. unfold try_except. intros -> ?. by rewrite decide_False. Qed.

End Primitives.

Lemma get_run w : get w = (w, Return w).
Proof. reflexivity. Qed.

Lemma modify_run f w : modify f w = (f w, Return tt).
Proof. reflexivity. Qed.

(** ** The data source method *)

Lemma alloc_init_run w : alloc_init w = (set_allocated S w, Return (allocated w)).
Proof. reflexivity. Qed.

Lemma getattr__impl_some w r m :
  _impl (row_at w r) = Some m → getattr__impl r w = (w, Return m).
Proof. unfold getattr__impl. rewrite bind_unfold. cbn. by intros ->. Qed.

Lemma getattr__impl_none w r :
  _impl (row_at w r) = None → getattr__impl r w = (w, Raise (Exn AttributeError [])).
Proof. unfold getattr__impl. rewrite bind_unfold. cbn. by intros ->. Qed.

Lemma setattr__impl_run w r d :
  setattr__impl r d w =
  (set_rows (insert r {| attrs := attrs (row_at w r); _impl := Some d |}) w, Return tt).
Proof. reflexivity. Qed.

Lemma dict_get_set k x d k' :
  dict_get (dict_set k x d) k' = if decide (k = k') then Some x else dict_get d k'.
Proof.
  induction d as [|[k0 y] d IH]; cbn.
  - by destruct (decide (k = k')).
  - destruct (decide (k0 = k)) as [->|Hk0]; cbn.
    + by destruct (decide (k = k')).
    + destruct (decide (k0 = k')) as [->|Hk0'].
      * by rewrite decide_False.
      * exact IH.
Qed.

Lemma dict_get_set_eq k x d : dict_get (dict_set k x d) k = Some x.
Proof. rewrite dict_get_set. by rewrite decide_True. Qed.


Lemma dict_set_set k x d : dict_set k x (dict_set k x d) = dict_set k x d.
Proof.
  induction d as [|[k0 y] d IH]; cbn.
  - by rewrite decide_True.
  - destruct (decide (k0 = k)) as [->|Hk0]; cbn.
    + by rewrite decide_True.
    + rewrite decide_False by done. by rewrite IH.
Qed.

Lemma impl_getitem_some w r m k x :
  _impl (row_at w r) = Some m → dict_get m k = Some x → impl_getitem r k w = (w, Return x).
Proof.
  intros Hm Hk. unfold impl_getitem.
  rewrite (bind_return _ _ _ _ _ (getattr__impl_some _ _ _ Hm)). by rewrite Hk.
Qed.

Lemma impl_getitem_none w r m k :
  _impl (row_at w r) = Some m → dict_get m k = None →
  impl_getitem r k w = (w, Raise (Exn KeyError [VStr k])).
Proof.
  intros Hm Hk. unfold impl_getitem.
  rewrite (bind_return _ _ _ _ _ (getattr__impl_some _ _ _ Hm)). by rewrite Hk.
Qed.

Lemma impl_setitem_run w r m k x :
  _impl (row_at w r) = Some m →
  impl_setitem r k x w =
  (set_rows (insert r {| attrs := attrs (row_at w r); _impl := Some (dict_set k x m) |}) w,
   Return tt).
Proof.
  intros Hm. unfold impl_setitem.
  by rewrite (bind_return _ _ _ _ _ (getattr__impl_some _ _ _ Hm)).
Qed.

Lemma set_rows_insert_insert w r x y :
  set_rows (insert r y) (set_rows (insert r x) w) = set_rows (insert r y) w.
Proof. unfold set_rows. cbn. by rewrite insert_insert_eq. Qed.

Lemma row_at_insert_eq w r x : row_at (set_rows (insert r x) w) r = x.
Proof. rewrite row_at_insert. by rewrite decide_True. Qed.

(** After [data[col] = d] the dict of the row has [d] under [col]: the two
    writes and the reads in between change nothing more. *)
Lemma cache_fill_run w r col m :
  _impl (row_at w r) = Some m → dict_get m col = None →
  (d ← alloc_init;
   impl_setitem r col d;;
   d' ← impl_getitem r col;
   impl_setitem r col d';;
   impl_getitem r col) w =
  (set_allocated S
     (set_rows (insert r {| attrs := attrs (row_at w r);
                            _impl := Some (dict_set col (allocated w) m) |}) w),
   Return (allocated w)).
Proof.
  intros Hm Hk.
  rewrite (bind_return _ _ _ _ _ (alloc_init_run _)).
  erewrite bind_return by (by apply impl_setitem_run).
  set (row1 := {| attrs := attrs (row_at (set_allocated S w) r);
                  _impl := Some (dict_set col (allocated w) m) |}).
  erewrite bind_return; cycle 1.
  { eapply impl_getitem_some; [by rewrite row_at_insert_eq | apply dict_get_set_eq]. }
  erewrite bind_return; cycle 1.
  { apply impl_setitem_run. by rewrite row_at_insert_eq. }
  erewrite impl_getitem_some; [|by rewrite row_at_insert_eq|apply dict_get_set_eq].
  by rewrite set_rows_insert_insert, row_at_insert_eq, dict_set_set.
Qed.

Lemma cache_step_run w r col :
  cache_step r col w = (with_cache w r col, Return (datum_of w r col)).
Proof.
  unfold cache_step, with_cache, datum_of, cached.
  destruct (_impl (row_at w r)) as [m|] eqn:Hm; cbn.
  - erewrite bind_return; cycle 1.
    { eapply try_return. eapply bind_then; [by apply getattr__impl_some|reflexivity]. }
    destruct (dict_get m col) as [d|] eqn:Hd; cbn.
    + eapply try_return. by eapply impl_getitem_some.
    + erewrite try_caught by (by eapply impl_getitem_none).
      by rewrite (cache_fill_run _ _ _ _ Hm Hd).
  - erewrite bind_return; cycle 1.
    { erewrite try_caught; [apply setattr__impl_run|].
      eapply bind_raise. by apply getattr__impl_none. }
    erewrite try_caught; cycle 1.
    { eapply impl_getitem_none; [by rewrite row_at_insert_eq | reflexivity]. }
    erewrite cache_fill_run; [|by rewrite row_at_insert_eq|reflexivity].
    by rewrite row_at_insert_eq, set_rows_insert_insert.
Qed.

Lemma bind_assoc {A B C} (m : M A) (f : A → M B) (g : B → M C) w :
  ((m ≫= f) ≫= g) w = (m ≫= λ a, f a ≫= g) w.
Proof. rewrite !bind_unfold. by destruct (m w) as [w' [a|e]]. Qed.

Lemma getattr_run w r name :
  getattr r name w =
  (w, match row_getattr (row_at w r) name with
      | Some v => Return v
      | None => Raise (Exn AttributeError [])
      end).
Proof.
  unfold getattr. rewrite bind_unfold. cbn.
  by destruct (row_getattr (row_at w r) name).
Qed.

Lemma get_missing_value_run w :
  get_missing_value w =
  (w, match missing_value (interface w) with
      | Configured v => Return v
      | Unconfigured message v => Raise (Exn ValueError [VStr message; v])
      end).
Proof.
  unfold get_missing_value. rewrite bind_unfold. cbn.
  by destruct (missing_value (interface w)).
Qed.

Lemma value_step_run w r row col :
  value_step r row col w =
  match format_error w r row col with
  | Some e => (w, Raise e)
  | None => (emit_all (diagnostic w r row col) w, Return (resolved w r col))
  end.
Proof.
  unfold value_step, format_error, diagnostic, formatted, resolved.
  destruct (row_getattr (row_at w r) col) as [v|] eqn:Hv.
  - eapply try_return. by rewrite getattr_run, Hv.
  - erewrite try_caught by (by rewrite getattr_run, Hv).
    destruct (missing_value (interface w)) as [v|message v] eqn:Hmv.
    + eapply try_return. by rewrite get_missing_value_run, Hmv.
    + erewrite try_caught by (by rewrite get_missing_value_run, Hmv).
      cbn [args]. rewrite bind_unfold. unfold call_format.
      by destruct (str_format w message row col).
Qed.

Lemma icon_step_run w v :
  try_except (w ← get; i ← getattr_icon v; call_bind i (factory (interface w)))
    AttributeError (λ _, mret VNone) w =
  (w, Return (icon_of (factory (interface w)) v)).
Proof.
  unfold try_except. rewrite bind_unfold. cbn.
  destruct v as [| | | | |s p [i|] b|items]; try reflexivity.
  destruct i as [| | | | |s' p' i' [b'|]|items]; reflexivity.
Qed.

Lemma split_step_run w v :
  split_step v w =
  (w, match split (factory (interface w)) v with
      | Some p => Return p
      | None => Raise (Exn ValueError [])
      end).
Proof.
  unfold split_step, split.
  destruct v as [| | | |vs|s p i b|items];
    try (erewrite bind_then; [reflexivity | apply icon_step_run | reflexivity]).
  destruct vs as [|i [|v [|x vs]]]; reflexivity.
Qed.

Lemma method_steps column row :
  TogaTable.tableView_objectValueForTableColumn_row_ column row =
  (data_row ← data_getitem row;
   let col_identifier := str_of (identifier column) in
   try_except (getattr__impl data_row;; mret tt) AttributeError
     (λ _, setattr__impl data_row []);;
   datum ← try_except (impl_getitem data_row col_identifier) KeyError
     (λ _, d ← alloc_init;
           impl_setitem data_row col_identifier d;;
           d' ← impl_getitem data_row col_identifier;
           impl_setitem data_row col_identifier d';;
           impl_getitem data_row col_identifier);
   v ← value_step data_row row col_identifier;
   '(icon, v') ← split_step v;
   modify (set_datum_attrs (insert datum {| label := PyStr.str v'; icon := icon |}));;
   mret datum).
Proof. reflexivity. Qed.

Lemma events_emit_all l w : events (emit_all l w) = events w ++ l.
Proof.
  revert w. induction l as [|e l IH]; intros w; cbn.
  - by rewrite app_nil_r.
  - rewrite IH. cbn. by rewrite <- app_assoc.
Qed.

Lemma interface_with_cache w r col : interface (with_cache w r col) = interface w.
Proof. unfold with_cache. by destruct (cached w r col). Qed.

Lemma str_format_with_cache w r col : str_format (with_cache w r col) = str_format w.
Proof. unfold with_cache. by destruct (cached w r col). Qed.

Lemma interface_emit_all l w : interface (emit_all l w) = interface w.
Proof. revert w. induction l as [|e l IH]; intros w; cbn; [done|]. by rewrite IH. Qed.

(** The cache step changes the [_impl] of the row and nothing else that a
    cell is read from: for every attribute but [_impl] the readings are
    those of the store before it. *)
Lemma row_getattr_with_cache w r col col' :
  col' ≠ "_impl" →
  row_getattr (row_at (with_cache w r col) r) col' = row_getattr (row_at w r) col'.
Proof.
  intros Hne. unfold with_cache. destruct (cached w r col); [done|].
  rewrite row_at_set_allocated, row_at_insert_eq.
  unfold row_getattr. by rewrite !decide_False.
Qed.

Lemma resolved_with_cache w r col col' :
  col' ≠ "_impl" → resolved (with_cache w r col) r col' = resolved w r col'.
Proof.
  intros Hne. unfold resolved.
  by rewrite row_getattr_with_cache, interface_with_cache.
Qed.

Lemma formatted_with_cache w r row col col' :
  col' ≠ "_impl" → formatted (with_cache w r col) r row col' = formatted w r row col'.
Proof.
  intros Hne. unfold formatted.
  by rewrite row_getattr_with_cache, interface_with_cache, str_format_with_cache.
Qed.

Lemma diagnostic_with_cache w r row col col' :
  col' ≠ "_impl" → diagnostic (with_cache w r col) r row col' = diagnostic w r row col'.
Proof. intros Hne. unfold diagnostic. by rewrite formatted_with_cache. Qed.

Lemma format_error_with_cache w r row col col' :
  col' ≠ "_impl" → format_error (with_cache w r col) r row col' = format_error w r row col'.
Proof. intros Hne. unfold format_error. by rewrite formatted_with_cache. Qed.

Lemma render_with_cache w r col col' :
  col' ≠ "_impl" → render (with_cache w r col) r col' = render w r col'.
Proof.
  intros Hne. unfold render. by rewrite resolved_with_cache, interface_with_cache.
Qed.

(** What the data source method does for a row that exists: the cell is
    read in the store the cache step leaves. *)
Lemma objectValue_run w column row r :
  data_lookup w row = Some r →
  let col := str_of (identifier column) in
  let w1 := with_cache w r col in
  TogaTable.tableView_objectValueForTableColumn_row_ column row w =
  match format_error w1 r row col with
  | Some e => (w1, Raise e)
  | None =>
      let w2 := emit_all (diagnostic w1 r row col) w1 in
      match render w1 r col with
      | Some a => (set_datum_attrs (insert (datum_of w r col) a) w2, Return (datum_of w r col))
      | None => (w2, Raise (Exn ValueError []))
      end
  end.
Proof.
  intros Hr col w1. rewrite method_steps.
  erewrite bind_return by (by apply data_getitem_run). cbn zeta.
  rewrite <- bind_assoc.
  erewrite bind_return by apply cache_step_run.
  fold col. fold w1.
  rewrite bind_unfold, value_step_run.
  destruct (format_error w1 r row col) as [e|]; [done|].
  rewrite bind_unfold, split_step_run.
  replace (interface (emit_all (diagnostic w1 r row col) w1)) with (interface w1)
    by (by rewrite interface_emit_all).
  unfold render. destruct (split _ _) as [[i v]|]; reflexivity.
Qed.

(** A row that does not exist: the method raises and changes nothing. *)
Lemma objectValue_no_row w column row :
  data_lookup w row = None →
  ∃ e, TogaTable.tableView_objectValueForTableColumn_row_ column row w = (w, Raise e).
Proof.
  intros Hr. destruct (data_getitem_fail _ _ Hr) as [e He]. exists e.
  rewrite method_steps. by eapply bind_raise.
Qed.

(** ** The index set *)

Section Indexes.

Import NSIndexSet.

Lemma least_nil l : least l = None → l = [].
Proof. by destruct l. Qed.

Lemma least_Some l m :
  least l = Some m → m ∈ l ∧ ∀ x, x ∈ l → (m ≤ x)%N.
Proof.
  revert m. induction l as [|y l IH]; intros m; [done|].
  change (least (y :: l)) with (Some (from_option (N.min y) y (least l))).
  destruct (least l) as [m'|] eqn:Hl; cbn; intros [= <-].
  - destruct (IH m' eq_refl) as [Hin Hle]. split.
    + destruct (N.min_spec y m') as [[_ ->]|[_ ->]]; [left|by right].
    + intros x [->|Hx]%elem_of_cons; [lia|]. specialize (Hle x Hx). lia.
  - apply least_nil in Hl as ->. split; [left|].
    intros x [->|Hx]%elem_of_cons; [lia|]. by apply elem_of_nil in Hx.
Qed.

(** The least element of a set is the head of its ascending list. *)
Lemma least_sorted (t : gset N) (l : list N) :
  StronglySorted N.lt l → (∀ x, x ∈ l ↔ x ∈ t) →
  least (elements t) = head l.
Proof.
  intros Hs Hl. destruct (least (elements t)) as [m|] eqn:Hm.
  - apply least_Some in Hm as [Hin Hle].
    apply elem_of_elements, Hl in Hin.
    destruct l as [|d l]; [by apply elem_of_nil in Hin|]. cbn. f_equal.
    assert (m ≤ d)%N as Hmd.
    { apply Hle, elem_of_elements, Hl. left. }
    apply elem_of_cons in Hin as [->|Hin]; [done|].
    apply StronglySorted_inv in Hs as [_ Hd].
    rewrite Forall_forall in Hd. specialize (Hd m Hin). lia.
  - apply least_nil in Hm. destruct l as [|d l]; [done|].
    assert (d ∈ elements t) as Hd by (apply elem_of_elements, Hl; left).
    rewrite Hm in Hd. by apply elem_of_nil in Hd.
Qed.

Lemma sorted_le_lt (l : list N) :
  StronglySorted N.le l → NoDup l → StronglySorted N.lt l.
Proof.
  induction 1 as [|x l Hs IH Hx]; intros Hnd; [constructor|].
  apply NoDup_cons in Hnd as [Hnx Hnd]. constructor; [by apply IH|].
  rewrite Forall_forall in Hx |- *. intros y Hy.
  specialize (Hx y Hy). assert (x ≠ y) by (by intros ->). lia.
Qed.

Lemma ascending_elem_of s i : i ∈ ascending s ↔ i ∈ s.
Proof. unfold ascending. by rewrite merge_sort_Permutation, elem_of_elements. Qed.

Lemma ascending_sorted s : StronglySorted N.lt (ascending s).
Proof.
  apply sorted_le_lt.
  - unfold ascending. apply (StronglySorted_merge_sort _).
  - unfold ascending. rewrite merge_sort_Permutation. apply NoDup_elements.
Qed.

Lemma ascending_length s : length (ascending s) = count s.
Proof. unfold ascending, count. by rewrite merge_sort_Permutation. Qed.

Lemma enumerate_suffix s l1 l2 :
  StronglySorted N.lt (l1 ++ l2) → (∀ x, x ∈ l1 ++ l2 ↔ x ∈ s) →
  enumerate s (length l2) (default NSNotFound (head l2)) = l2.
Proof.
  revert l1. induction l2 as [|c l2 IH]; intros l1 Hs Hl; [done|].
  cbn. f_equal.
  assert (indexGreaterThanIndex s c = default NSNotFound (head l2)) as ->.
  { unfold indexGreaterThanIndex. f_equal. apply least_sorted.
    - apply StronglySorted_app_1_r in Hs. by apply StronglySorted_inv in Hs as [? _].
    - intros x. rewrite elem_of_filter, <- Hl. split.
      + intros Hx. split; [|by apply elem_of_app; right; right].
        apply StronglySorted_app_1_r in Hs. apply StronglySorted_inv in Hs as [_ Hc].
        rewrite Forall_forall in Hc. by apply Hc.
      + intros [Hcx [Hx|[->|Hx]%elem_of_cons]%elem_of_app]; [|lia|done].
        pose proof (StronglySorted_app_1_elem_of _ _ _ x c Hs Hx) as Hlt.
        specialize (Hlt ltac:(left)). lia. }
  apply (IH (l1 ++ [c])); by rewrite <- app_assoc.
Qed.

(** The loop visits the selected indexes in ascending order. *)
Lemma enumerate_ascending s :
  enumerate s (count s) (firstIndex s) = ascending s.
Proof.
  rewrite <- ascending_length.
  assert (firstIndex s = default NSNotFound (head (ascending s))) as ->.
  { unfold firstIndex. f_equal.
    apply least_sorted; [apply ascending_sorted | apply ascending_elem_of]. }
  apply (enumerate_suffix s []); [apply ascending_sorted | apply ascending_elem_of].
Qed.

End Indexes.

(** ** The selection handler *)

Lemma selection_loop_run w n current_index selection :
  Forall (λ i, is_Some (data_lookup w (Z.of_N i)))
    (enumerate (selectedRowIndexes (table w)) n current_index) →
  TogaTable.selection_loop n current_index selection w =
  (w, Return (selection ++
              rows_of w (enumerate (selectedRowIndexes (table w)) n current_index))).
Proof.
  revert current_index selection.
  induction n as [|n IH]; intros c acc Hv.
  - cbn. by rewrite app_nil_r.
  - cbn [enumerate TogaTable.selection_loop] in Hv |- *.
    apply Forall_cons in Hv as [[r Hr] Hv].
    erewrite bind_return by (by apply data_getitem_run).
    rewrite (bind_return _ _ _ _ _ (get_run _)).
    rewrite IH by done. unfold rows_of. cbn [omap list_omap]. rewrite Hr.
    by rewrite <- app_assoc.
Qed.

Lemma valid_selection_ascending w :
  valid_selection w →
  Forall (λ i, is_Some (data_lookup w (Z.of_N i))) (ascending (selectedRowIndexes (table w))).
Proof.
  unfold valid_selection. rewrite !Forall_forall. intros Hv i Hi.
  by apply Hv, elem_of_elements, ascending_elem_of.
Qed.

Lemma rows_of_Forall2 w indexes :
  Forall (λ i, is_Some (data_lookup w (Z.of_N i))) indexes →
  Forall2 (λ i r, data_lookup w (Z.of_N i) = Some r) indexes (rows_of w indexes).
Proof.
  induction 1 as [|i l [r Hr] _ IH]; cbn; [constructor|].
  unfold rows_of. cbn. rewrite Hr. cbn. by constructor.
Qed.

(** The first half of the handler: the loop and the assignment of
    [interface._selection]. *)
Lemma selectionDidChange_steps notification :
  TogaTable.tableViewSelectionDidChange_ notification =
  (w ← get;
   selection ← TogaTable.selection_loop
     (NSIndexSet.count (selectedRowIndexes (table w)))
     (NSIndexSet.firstIndex (selectedRowIndexes (table w))) [];
   w ← get;
   (if negb (multiple_select (interface w)) then
      match selection with
      | r :: _ => modify (set_interface (set__selection (SelRow r)))
      | [] => modify (set_interface (set__selection SelNone))
      end
    else modify (set_interface (set__selection (SelRows selection))));;
   w ← get;
   selected ←
     (if bool_decide (selectedRow (table w) = -1) then mret None
      else r ← data_getitem (selectedRow (table w)); mret (Some r));
   w ← get;
   match on_select (interface w) with
   | Some handler => modify (emit (call_on_select handler selected))
   | None => mret tt
   end).
Proof. reflexivity. Qed.

Lemma store_selection_run w selection :
  (if negb (multiple_select (interface w)) then
     match selection with
     | r :: _ => modify (set_interface (set__selection (SelRow r)))
     | [] => modify (set_interface (set__selection SelNone))
     end
   else modify (set_interface (set__selection (SelRows selection)))) w =
  (set_interface (set__selection
     (if negb (multiple_select (interface w)) then
        match selection with
        | r :: _ => SelRow r
        | [] => SelNone
        end
      else SelRows selection)) w, Return tt).
Proof. destruct (multiple_select (interface w)); cbn; [done|]. by destruct selection. Qed.

Lemma selectionDidChange_run w notification selected :
  valid_selection w → active_row w = Some selected →
  TogaTable.tableViewSelectionDidChange_ notification w =
  (emit_all (callback w selected) (set_interface (set__selection (aggregate w)) w),
   Return tt).
Proof.
  intros Hv Ha. rewrite selectionDidChange_steps.
  rewrite (bind_return _ _ _ _ _ (get_run _)).
  erewrite bind_return; cycle 1.
  { apply selection_loop_run. rewrite enumerate_ascending.
    by apply valid_selection_ascending. }
  rewrite enumerate_ascending. cbn [app].
  rewrite (bind_return _ _ _ _ _ (get_run _)).
  erewrite bind_return by apply store_selection_run.
  fold (aggregate w).
  rewrite (bind_return _ _ _ _ _ (get_run _)).
  unfold active_row in Ha. unfold callback.
  change (selectedRow (table (set_interface (set__selection (aggregate w)) w)))
    with (selectedRow (table w)).
  destruct (bool_decide (selectedRow (table w) = -1)).
  - injection Ha as <-.
    erewrite bind_return by reflexivity.
    rewrite (bind_return _ _ _ _ _ (get_run _)).
    change (on_select (interface (set_interface (set__selection (aggregate w)) w)))
      with (on_select (interface w)).
    by destruct (on_select (interface w)).
  - destruct (data_lookup w (selectedRow (table w))) as [r|] eqn:Hr; [|done].
    injection Ha as <-.
    erewrite bind_return; cycle 1.
    { eapply bind_then; [by apply data_getitem_run|reflexivity]. }
    rewrite (bind_return _ _ _ _ _ (get_run _)).
    change (on_select (interface (set_interface (set__selection (aggregate w)) w)))
      with (on_select (interface w)).
    by destruct (on_select (interface w)).
Qed.

(** Whatever the active row index, the stored selection is the aggregate. *)
Lemma selectionDidChange_selection w notification :
  valid_selection w →
  _selection (interface (TogaTable.tableViewSelectionDidChange_ notification w).1) = aggregate w.
Proof.
  intros Hv. destruct (active_row w) as [selected|] eqn:Ha.
  - rewrite (selectionDidChange_run _ _ _ Hv Ha).
    cbn [fst]. by rewrite interface_emit_all.
  - rewrite selectionDidChange_steps.
    rewrite (bind_return _ _ _ _ _ (get_run _)).
    erewrite bind_return; cycle 1.
    { apply selection_loop_run. rewrite enumerate_ascending.
      by apply valid_selection_ascending. }
    rewrite enumerate_ascending. cbn [app].
    rewrite (bind_return _ _ _ _ _ (get_run _)).
    erewrite bind_return by apply store_selection_run.
    fold (aggregate w).
    rewrite (bind_return _ _ _ _ _ (get_run _)).
    unfold active_row in Ha.
    change (selectedRow (table (set_interface (set__selection (aggregate w)) w)))
      with (selectedRow (table w)).
    destruct (bool_decide (selectedRow (table w) = -1)); [done|].
    destruct (data_lookup w (selectedRow (table w))) as [r|] eqn:Hr; [done|].
    destruct (data_getitem_fail (set_interface (set__selection (aggregate w)) w)
                (selectedRow (table w)) Hr) as [e He].
    erewrite (bind_raise (data_getitem _ ≫= _)); [|by eapply bind_raise]. done.
Qed.

(** ** The column methods *)

Lemma _add_column_run heading accessor w :
  Table._add_column heading accessor w = (with_column heading accessor w, Return tt).
Proof. reflexivity. Qed.

Lemma add_column_run heading accessor w :
  Table.add_column heading accessor w =
  (emit sizeToFit (with_column heading accessor w), Return tt).
Proof. reflexivity. Qed.

Lemma remove_column_missing w accessor :
  column_identifiers (impl w) !! accessor = None →
  Table.remove_column accessor w = (w, Raise (Exn KeyError [VStr accessor])).
Proof.
  intros H. unfold Table.remove_column.
  rewrite (bind_return _ _ _ _ _ (get_run _)), H. reflexivity.
Qed.

Lemma remove_column_run w accessor i c l :
  column_identifiers (impl w) !! accessor = Some i →
  NSTableView.tableColumnWithIdentifier i (tableColumns (table w)) = Some c →
  list_remove c (columns (impl w)) = Some l →
  Table.remove_column accessor w =
  (emit sizeToFit
     (set_impl (set_column_identifiers (delete accessor))
        (set_impl (set_columns (λ _, l))
           (set_table (set_tableColumns (NSTableView.removeTableColumn (Some c))) w))),
   Return tt).
Proof.
  intros Hi Hc Hl. unfold Table.remove_column.
  rewrite (bind_return _ _ _ _ _ (get_run _)), Hi.
  erewrite bind_return by reflexivity.
  rewrite (bind_return _ _ _ _ _ (get_run _)), Hc.
  erewrite bind_return by reflexivity.
  rewrite (bind_return _ _ _ _ _ (get_run _)).
  cbn [mbind option_bind]. 
  change (columns (impl (set_table (set_tableColumns
            (NSTableView.removeTableColumn (Some c))) w))) with (columns (impl w)).
  rewrite Hl.
  erewrite bind_return by reflexivity.
  rewrite (bind_return _ _ _ _ _ (get_run _)).
  cbn. rewrite Hi. reflexivity.
Qed.

Lemma find_column_app_new i l c :
  Forall (λ x, identifier x ≠ i) l → identifier c = i →
  NSTableView.tableColumnWithIdentifier i (l ++ [c]) = Some c.
Proof.
  intros Hl Hc. induction Hl as [|x l Hx _ IH]; cbn.
  - by rewrite decide_True.
  - by rewrite decide_False.
Qed.

Lemma list_remove_app_new l c :
  Forall (λ x, address x ≠ address c) l → list_remove c (l ++ [c]) = Some l.
Proof.
  intros Hl. induction Hl as [|x l Hx _ IH]; cbn.
  - unfold same_object. by rewrite bool_decide_true.
  - unfold same_object. rewrite bool_decide_false by done. by rewrite IH.
Qed.

Lemma untracked_inv w accessor :
  tracked w accessor = false →
  column_identifiers (impl w) !! accessor = None ∧
  Forall (λ c, identifier c ≠ at_ accessor) (columns (impl w)).
Proof.
  unfold tracked. intros [H1 H2]%orb_false_elim.
  apply bool_decide_eq_false in H1, H2. split.
  - destruct (column_identifiers (impl w) !! accessor) eqn:E; [|done].
    destruct H1. by eexists.
  - by apply Forall_Exists_neg.
Qed.

(** * Properties of the adapter *)

(** ** Row count, reloads and frame *)

Lemma emit_reloadData_once : reloads_once (modify (emit reloadData)).
Proof. intros w. exists (emit reloadData w). by repeat split. Qed.

(** C7: [numberOfRowsInTableView_] returns the length of [interface.data]
    when the data is there and not empty, and 0 when it is [None] or empty;
    it changes nothing. *)
Theorem numberOfRows_is_length (w : World) :
  TogaTable.numberOfRowsInTableView_ w =
  (w, Return match data (interface w) with
             | Some (r :: l) => Z.of_nat (length (r :: l))
             | Some [] => 0
             | None => 0
             end).
Proof.
  unfold TogaTable.numberOfRowsInTableView_.
  rewrite (bind_return _ _ _ _ _ (get_run _)).
  by destruct (data (interface w)) as [[|r l]|].
Qed.

(** C6: each of [insert], [change], [remove] and [clear], whatever its
    arguments, sends exactly one [reloadData] to the native table view and
    does nothing else. *)
Theorem mutation_reloads_once (index : Z) (item : nat) :
  reloads_once (Table.insert index item) ∧
  reloads_once (Table.change item) ∧
  reloads_once (Table.remove item) ∧
  reloads_once Table.clear.
Proof. repeat split; apply emit_reloadData_once. Qed.

(** C9: [insert], [change], [remove], [clear], [change_source],
    [scroll_to_row], [set_on_select] and [rehint] leave the adapter's
    [columns] and [column_identifiers] as they are, and [set_on_select]
    leaves the whole store as it is. *)
Theorem other_methods_keep_columns
    (index row : Z) (item : nat) (source : option (list nat)) (handler : option string) :
  keeps_columns (Table.insert index item) ∧
  keeps_columns (Table.change item) ∧
  keeps_columns (Table.remove item) ∧
  keeps_columns Table.clear ∧
  keeps_columns (Table.change_source source) ∧
  keeps_columns (Table.scroll_to_row row) ∧
  keeps_columns (Table.set_on_select handler) ∧
  keeps_columns Table.rehint ∧
  ∀ w, Table.set_on_select handler w = (w, Return tt).
Proof. repeat split. Qed.

(** ** Adding and removing columns *)

Example example_columns :
  columns (impl (example_world false)) = [name_column; age_column].
Proof. reflexivity. Qed.

Lemma add_columns_run l w : Table.add_columns l w = (with_columns l w, Return tt).
Proof.
  revert w. induction l as [|[h a] l IH]; intros w; [done|].
  cbn [Table.add_columns]. by rewrite bind_unfold, _add_column_run, IH.
Qed.

Lemma wf_with_column heading accessor w : wf w → wf (with_column heading accessor w).
Proof.
  intros [Hs Ha]. split; cbn.
  - by rewrite Hs.
  - apply Forall_app. split.
    + eapply Forall_impl; [exact Ha|]. cbn. lia.
    + constructor; [|constructor]. cbn. lia.
Qed.

Lemma wf_with_columns l w : wf w → wf (with_columns l w).
Proof.
  revert w. induction l as [|[h a] l IH]; intros w Hw; [done|].
  cbn. by apply IH, wf_with_column.
Qed.

Lemma wf_frame w w' :
  tableColumns (table w') = tableColumns (table w) →
  columns (impl w') = columns (impl w) →
  allocated w' = allocated w →
  wf w → wf w'.
Proof. intros Ht Hc Ha [Hs Hal]. split; [congruence|]. by rewrite Hc, Ha. Qed.

Lemma wf_create w : wf (Table.create w).1.
Proof.
  unfold Table.create.
  rewrite bind_unfold, modify_run, bind_unfold, get_run.
  rewrite bind_unfold, add_columns_run.
  match goal with
  | |- wf (_ (with_columns ?l ?w0)).1 =>
      apply (wf_frame (with_columns l w0)); [reflexivity..|]
  end.
  apply wf_with_columns. split; [done|constructor].
Qed.

Lemma wf_add_column heading accessor w : wf w → wf (Table.add_column heading accessor w).1.
Proof.
  intros Hw. rewrite add_column_run.
  apply (wf_frame (with_column heading accessor w)); [reflexivity..|].
  by apply wf_with_column.
Qed.

Lemma list_remove_Forall (P : NSTableColumn → Prop) c l l' :
  list_remove c l = Some l' → Forall P l → Forall P l'.
Proof.
  revert l'. induction l as [|x l IH]; intros l'; cbn; [done|].
  intros Hr [Hx Hl]%Forall_cons. destruct (same_object x c).
  - by injection Hr as <-.
  - destruct (list_remove c l) as [l0|]; [|done]. injection Hr as <-.
    constructor; [done|]. by apply IH.
Qed.

Lemma wf_remove_column accessor w : wf w → wf (Table.remove_column accessor w).1.
Proof.
  intros Hw.
  destruct (column_identifiers (impl w) !! accessor) as [i|] eqn:Hi;
    [|by rewrite remove_column_missing].
  destruct (NSTableView.tableColumnWithIdentifier i (tableColumns (table w)))
    as [c|] eqn:Hc.
  - destruct (list_remove c (columns (impl w))) as [l|] eqn:Hl.
    + rewrite (remove_column_run _ _ _ _ _ Hi Hc Hl).
      destruct Hw as [Hs Ha]. split; cbn.
      * by rewrite Hs, Hl.
      * by eapply list_remove_Forall.
    + unfold Table.remove_column.
      rewrite (bind_return _ _ _ _ _ (get_run _)), Hi.
      erewrite bind_return by reflexivity.
      rewrite (bind_return _ _ _ _ _ (get_run _)), Hc.
      erewrite bind_return by reflexivity.
      rewrite (bind_return _ _ _ _ _ (get_run _)).
      cbn [mbind option_bind].
      change (columns (impl (set_table (set_tableColumns
                (NSTableView.removeTableColumn (Some c))) w))) with (columns (impl w)).
      rewrite Hl.
      change (wf (set_table (set_tableColumns
                (NSTableView.removeTableColumn (Some c))) w)).
      destruct Hw as [Hs Ha]. split; [|done].
      change (default (tableColumns (table w)) (list_remove c (tableColumns (table w)))
              = columns (impl w)).
      by rewrite Hs, Hl.
  - unfold Table.remove_column.
    rewrite (bind_return _ _ _ _ _ (get_run _)), Hi.
    erewrite bind_return by reflexivity.
    rewrite (bind_return _ _ _ _ _ (get_run _)), Hc.
    erewrite bind_return by reflexivity.
    rewrite (bind_return _ _ _ _ _ (get_run _)).
    cbn. by destruct Hw.
Qed.

(** The adapter is never in a store that is not well formed. *)
Lemma reachable_wf w : reachable w → wf w.
Proof.
  induction 1 as [w|w h a _ IH|w a _ IH|w w' _ [Hs Ha] Ht Hc Hle].
  - apply wf_create.
  - by apply wf_add_column.
  - by apply wf_remove_column.
  - split; [congruence|]. rewrite Hc.
    eapply Forall_impl; [exact Ha|]. cbn. lia.
Qed.

(** C4: in a store where the native table has the adapter's columns, for an
    accessor the adapter holds nothing for, [add_column(heading, accessor)]
    followed by [remove_column(accessor)] returns, and the adapter's
    [columns] and [column_identifiers] are what they were before. *)
Theorem add_then_remove_restores (w : World) (heading accessor : string) :
  wf w → tracked w accessor = false →
  ∃ w', (Table.add_column heading accessor;; Table.remove_column accessor) w =
        (w', Return tt) ∧
        columns (impl w') = columns (impl w) ∧
        column_identifiers (impl w') = column_identifiers (impl w).
Proof.
  intros [Hs Ha] [Hid Hcols]%untracked_inv.
  set (c := {| address := allocated w; identifier := at_ accessor |}).
  eexists. split.
  - rewrite bind_unfold, add_column_run.
    eapply (remove_column_run _ _ (at_ accessor) c (columns (impl w))).
    + cbn. apply lookup_insert_eq.
    + cbn. rewrite Hs. by apply find_column_app_new.
    + cbn. apply list_remove_app_new.
      eapply Forall_impl; [exact Ha|]. cbn. lia.
  - split; [done|]. cbn. rewrite delete_insert_eq. by apply delete_id.
Qed.

(** The example table, and a column for "city" added and removed. *)
Lemma add_then_remove_restores_witness :
  ∃ w', (Table.add_column "City" "city";; Table.remove_column "city") (example_world false) =
        (w', Return tt) ∧
        columns (impl w') = columns (impl (example_world false)) ∧
        column_identifiers (impl w') = column_identifiers (impl (example_world false)).
Proof.
  apply (add_then_remove_restores (example_world false) "City" "city").
  - apply wf_create.
  - vm_compute. reflexivity.
Defined.

(** ** Removing a column that was never added *)

Lemma with_columns_identifiers l w accessor :
  accessor ∉ l.*2 →
  column_identifiers (impl (with_columns l w)) !! accessor =
  column_identifiers (impl w) !! accessor.
Proof.
  revert w. induction l as [|[h a] l IH]; intros w Hn; [done|].
  cbn in Hn. apply not_elem_of_cons in Hn as [Hne Hn].
  cbn [with_columns fold_left]. fold (with_columns l (with_column h a w)).
  rewrite IH by done. cbn. by rewrite lookup_insert_ne.
Qed.

Lemma remove_column_identifiers w a :
  column_identifiers (impl (Table.remove_column a w).1) = column_identifiers (impl w) ∨
  column_identifiers (impl (Table.remove_column a w).1) =
    delete a (column_identifiers (impl w)).
Proof.
  destruct (column_identifiers (impl w) !! a) as [i|] eqn:Hi;
    [|left; by rewrite remove_column_missing].
  destruct (NSTableView.tableColumnWithIdentifier i (tableColumns (table w)) ≫=
            λ c, list_remove c (columns (impl w))) as [l|] eqn:Hl.
  - destruct (NSTableView.tableColumnWithIdentifier i (tableColumns (table w)))
      as [c|] eqn:Hc; [|done].
    right. by rewrite (remove_column_run _ _ _ _ _ Hi Hc Hl).
  - left. unfold Table.remove_column.
    rewrite (bind_return _ _ _ _ _ (get_run _)), Hi.
    erewrite bind_return by reflexivity.
    rewrite (bind_return _ _ _ _ _ (get_run _)).
    erewrite bind_return by reflexivity.
    rewrite (bind_return _ _ _ _ _ (get_run _)).
    change (columns (impl (set_table _ w))) with (columns (impl w)).
    by rewrite Hl.
Qed.

Lemma never_added_identifiers accessor w :
  never_added accessor w → column_identifiers (impl w) !! accessor = None.
Proof.
  induction 1 as [w Hn|w h a _ IH Hne|w a _ IH|w w' _ IH Himpl].
  - unfold Table.create.
    rewrite bind_unfold, modify_run, bind_unfold, get_run.
    rewrite bind_unfold, add_columns_run.
    match goal with
    | |- column_identifiers (impl (_ (with_columns ?l ?w0)).1) !! _ = _ =>
        change (column_identifiers (impl (with_columns l w0)) !! accessor = None)
    end.
    by rewrite with_columns_identifiers.
  - rewrite add_column_run. cbn. by rewrite lookup_insert_ne.
  - destruct (remove_column_identifiers w a) as [-> | ->]; [done|].
    rewrite lookup_delete. by case_decide.
  - by rewrite Himpl.
Qed.

(** C5: for an accessor for which no column was ever added,
    [remove_column(accessor)] raises [KeyError], and the failed call leaves
    the store, so the adapter's [columns] and [column_identifiers], as it
    was. *)
Theorem remove_never_added_raises (w : World) (accessor : string) :
  never_added accessor w →
  Table.remove_column accessor w = (w, Raise (Exn KeyError [VStr accessor])).
Proof. intros H. by apply remove_column_missing, never_added_identifiers. Qed.

(** The example table has columns for "name" and "age", none for "city". *)
Lemma remove_never_added_raises_witness :
  Table.remove_column "city" (example_world false) =
  (example_world false, Raise (Exn KeyError [VStr "city"])).
Proof.
  apply (remove_never_added_raises (example_world false) "city").
  apply never_created. cbn.
  intros H. repeat (apply elem_of_cons in H as [H|H]; [discriminate H|]).
  by apply elem_of_nil in H.
Defined.

(** ** The selection *)

(** C2: after a selection change, [interface._selection] is, without
    [multiple_select], the row of the lowest selected index, or [None] when
    nothing is selected, and with [multiple_select] the list of the selected
    rows in ascending order of index. *)
Theorem selection_change_stores_selection
    (w : World) (notification : TogaTable.NSNotification) :
  valid_selection w →
  ∃ indexes selection,
    StronglySorted N.lt indexes ∧
    (∀ i, i ∈ indexes ↔ i ∈ selectedRowIndexes (table w)) ∧
    Forall2 (λ i r, data_lookup w (Z.of_N i) = Some r) indexes selection ∧
    _selection (interface (TogaTable.tableViewSelectionDidChange_ notification w).1) =
      if multiple_select (interface w) then SelRows selection
      else match selection with
           | r :: _ => SelRow r
           | [] => SelNone
           end.
Proof.
  intros Hv.
  exists (ascending (selectedRowIndexes (table w))),
         (rows_of w (ascending (selectedRowIndexes (table w)))).
  split; [apply ascending_sorted|].
  split; [apply ascending_elem_of|].
  split; [by apply rows_of_Forall2, valid_selection_ascending|].
  rewrite selectionDidChange_selection by done.
  unfold aggregate. by destruct (multiple_select (interface w)).
Qed.

Lemma example_valid_selection multiple :
  valid_selection (select {[4; 2]}%N 4 (example_world multiple)).
Proof.
  unfold valid_selection.
  apply Forall_forall. intros i Hi. apply elem_of_elements in Hi.
  apply elem_of_union in Hi as [Hi|Hi]; apply elem_of_singleton in Hi; subst i;
    by eexists.
Qed.

(** Rows 2 and 4 selected, in a table with [multiple_select]. *)
Lemma selection_change_stores_selection_witness :
  let w := select {[4; 2]}%N 4 (example_world true) in
  valid_selection w ∧
  ∃ indexes selection,
    StronglySorted N.lt indexes ∧
    (∀ i, i ∈ indexes ↔ i ∈ selectedRowIndexes (table w)) ∧
    Forall2 (λ i r, data_lookup w (Z.of_N i) = Some r) indexes selection ∧
    _selection (interface (TogaTable.tableViewSelectionDidChange_
       TogaTable.NSTableViewSelectionDidChangeNotification w).1) =
      if multiple_select (interface w) then SelRows selection
      else match selection with
           | r :: _ => SelRow r
           | [] => SelNone
           end.
Proof.
  intros w. split; [apply example_valid_selection|].
  apply (selection_change_stores_selection w).
  apply example_valid_selection.
Defined.

Example selection_multiple :
  _selection (interface (TogaTable.tableViewSelectionDidChange_
    TogaTable.NSTableViewSelectionDidChangeNotification
    (select {[4; 2]}%N 4 (example_world true))).1) = SelRows [12; 14]%nat.
Proof. vm_compute. reflexivity. Qed.

Example selection_single :
  _selection (interface (TogaTable.tableViewSelectionDidChange_
    TogaTable.NSTableViewSelectionDidChangeNotification
    (select {[3]}%N 3 (example_world false))).1) = SelRow 13.
Proof. vm_compute. reflexivity. Qed.

Example selection_empty :
  _selection (interface (TogaTable.tableViewSelectionDidChange_
    TogaTable.NSTableViewSelectionDidChangeNotification
    (select ∅ (-1) (example_world false))).1) = SelNone ∧
  _selection (interface (TogaTable.tableViewSelectionDidChange_
    TogaTable.NSTableViewSelectionDidChangeNotification
    (select ∅ (-1) (example_world true))).1) = SelRows [].
Proof. split; vm_compute; reflexivity. Qed.

(** C3: a selection change calls the [on_select] handler of the interface,
    when there is one, exactly once, with the row of the toolkit's active row
    index, or with [None] when that index is -1. The argument is read from
    the active row and the data alone: the selected indexes and
    [multiple_select], from which [_selection] is computed, play no part. *)
Theorem selection_change_calls_on_select
    (w : World) (notification : TogaTable.NSNotification) :
  valid_selection w →
  selectedRow (table w) = -1 ∨ is_Some (data_lookup w (selectedRow (table w))) →
  let selected :=
    if bool_decide (selectedRow (table w) = -1) then None
    else data_lookup w (selectedRow (table w)) in
  ∃ w',
    TogaTable.tableViewSelectionDidChange_ notification w = (w', Return tt) ∧
    events w' = events w ++
      match on_select (interface w) with
      | Some handler => [call_on_select handler selected]
      | None => []
      end.
Proof.
  intros Hv Ha selected.
  assert (active_row w = Some selected) as Hs.
  { unfold active_row, selected. case_bool_decide as Hm; [done|].
    destruct Ha as [?|[r Hr]]; [done|]. by rewrite Hr. }
  eexists. split; [by apply selectionDidChange_run|].
  rewrite events_emit_all. reflexivity.
Qed.

(** Rows 2 and 4 selected and row 4 active: the handler gets row 4, while
    [_selection] holds rows 2 and 4. *)
Lemma selection_change_calls_on_select_witness :
  let w := select {[4; 2]}%N 4 (example_world true) in
  valid_selection w ∧
  (selectedRow (table w) = -1 ∨ is_Some (data_lookup w (selectedRow (table w)))) ∧
  ∃ w',
    TogaTable.tableViewSelectionDidChange_
      TogaTable.NSTableViewSelectionDidChangeNotification w = (w', Return tt) ∧
    events w' = events w ++
      match on_select (interface w) with
      | Some handler =>
          [call_on_select handler
             (if bool_decide (selectedRow (table w) = -1) then None
              else data_lookup w (selectedRow (table w)))]
      | None => []
      end.
Proof.
  intros w.
  assert (selectedRow (table w) = -1 ∨ is_Some (data_lookup w (selectedRow (table w))))
    as Ha by (right; by eexists).
  split; [apply example_valid_selection|]. split; [exact Ha|].
  exact (selection_change_calls_on_select w
           TogaTable.NSTableViewSelectionDidChangeNotification
           (example_valid_selection true) Ha).
Defined.

(** The argument of the handler and the stored selection can differ. *)
Example callback_differs_from_selection :
  let w' := (TogaTable.tableViewSelectionDidChange_
               TogaTable.NSTableViewSelectionDidChangeNotification
               (select {[4; 2]}%N 4 (example_world true))).1 in
  _selection (interface w') = SelRows [12; 14]%nat ∧
  last (events w') = Some (call_on_select "on_select" (Some 14%nat)).
Proof. vm_compute. split; reflexivity. Qed.

(** ** The cells *)

Lemma split_cell f v :
  split f v = if is_cell v then Some (cell_icon f v, cell_value v) else None.
Proof.
  destruct v as [| | | |vs|s p i b|items]; try reflexivity.
  destruct vs as [|i [|v [|x vs]]]; reflexivity.
Qed.

Lemma render_cell w r col :
  is_cell (resolved w r col) = true →
  render w r col =
  Some {| label := PyStr.str (cell_value (resolved w r col));
          icon := cell_icon (factory (interface w)) (resolved w r col) |}.
Proof. intros H. unfold render. by rewrite split_cell, H. Qed.

Lemma render_not_cell w r col :
  is_cell (resolved w r col) = false → render w r col = None.
Proof. intros H. unfold render. by rewrite split_cell, H. Qed.

Lemma rows_emit_all l w : rows (emit_all l w) = rows w.
Proof. revert w. induction l as [|e l IH]; intros w; cbn; [done|]. by rewrite IH. Qed.

Lemma allocated_emit_all l w : allocated (emit_all l w) = allocated w.
Proof. revert w. induction l as [|e l IH]; intros w; cbn; [done|]. by rewrite IH. Qed.

Lemma row_at_emit_all l w r : row_at (emit_all l w) r = row_at w r.
Proof. unfold row_at. by rewrite rows_emit_all. Qed.

Lemma cached_with_cache w r col :
  cached (with_cache w r col) r col = Some (datum_of w r col).
Proof.
  unfold with_cache, datum_of. destruct (cached w r col) as [d|] eqn:Hd; [done|].
  unfold cached. rewrite row_at_set_allocated, row_at_insert_eq. cbn.
  apply dict_get_set_eq.
Qed.

Lemma attrs_with_cache w r col : attrs (row_at (with_cache w r col) r) = attrs (row_at w r).
Proof.
  unfold with_cache. destruct (cached w r col); [done|].
  by rewrite row_at_set_allocated, row_at_insert_eq.
Qed.

Lemma allocated_with_cache w r col :
  allocated (with_cache w r col) =
  match cached w r col with
  | Some _ => allocated w
  | None => S (allocated w)
  end.
Proof. unfold with_cache. by destruct (cached w r col). Qed.

(** For a column other than [_impl] the value resolved is the attribute of
    the data, or the missing value. *)
Lemma resolved_attrs w r col :
  col ≠ "_impl" →
  resolved w r col =
  match attrs (row_at w r) !! col with
  | Some v => v
  | None =>
      match missing_value (interface w) with
      | Configured v => v
      | Unconfigured _ v => v
      end
  end.
Proof. intros Hne. unfold resolved, row_getattr. by rewrite decide_False. Qed.

Lemma formatted_attrs w r row col :
  col ≠ "_impl" →
  formatted w r row col =
  match attrs (row_at w r) !! col, missing_value (interface w) with
  | None, Unconfigured message _ => Some (str_format w message row col)
  | _, _ => None
  end.
Proof. intros Hne. unfold formatted, row_getattr. by rewrite decide_False. Qed.

Lemma formats_no_error w r row col :
  col ≠ "_impl" → formats w r row col → format_error w r row col = None.
Proof.
  intros Hne Hf. unfold format_error. rewrite formatted_attrs by done.
  destruct (attrs (row_at w r) !! col) eqn:Ha; [done|].
  destruct (missing_value (interface w)) as [v|message v] eqn:Hm; [done|].
  by destruct (Hf message v Ha Hm) as [line ->].
Qed.

(** The rows and the allocator after a call are those the cache step
    leaves. *)
Lemma objectValue_rows w column row r :
  data_lookup w row = Some r →
  let col := str_of (identifier column) in
  let w' := (TogaTable.tableView_objectValueForTableColumn_row_ column row w).1 in
  rows w' = rows (with_cache w r col) ∧ allocated w' = allocated (with_cache w r col).
Proof.
  intros Hr col w'. unfold w'. rewrite (objectValue_run _ _ _ _ Hr). fold col.
  destruct (format_error _ _ _ _); [done|]. cbn zeta.
  destruct (render _ _ _); cbn [fst];
    [change (rows (set_datum_attrs ?f ?w0)) with (rows w0);
     change (allocated (set_datum_attrs ?f ?w0)) with (allocated w0)|];
    by rewrite rows_emit_all, allocated_emit_all.
Qed.

(** A call for a row that exists, a column other than [_impl], a diagnostic
    that can be formatted and a value that can be rendered returns the
    render object of the cache, with its [attrs] assigned. *)
Lemma objectValue_returns w column row r :
  data_lookup w row = Some r →
  let col := str_of (identifier column) in
  col ≠ "_impl" →
  formats w r row col →
  is_cell (resolved w r col) = true →
  ∃ w',
    TogaTable.tableView_objectValueForTableColumn_row_ column row w =
      (w', Return (datum_of w r col)) ∧
    datum_attrs w' !! datum_of w r col =
      Some {| label := PyStr.str (cell_value (resolved w r col));
              icon := cell_icon (factory (interface w)) (resolved w r col) |} ∧
    cached w' r col = Some (datum_of w r col) ∧
    allocated w' = match cached w r col with
                   | Some _ => allocated w
                   | None => S (allocated w)
                   end ∧
    w' = set_datum_attrs
           (insert (datum_of w r col)
              {| label := PyStr.str (cell_value (resolved w r col));
                 icon := cell_icon (factory (interface w)) (resolved w r col) |})
           (emit_all (diagnostic w r row col) (with_cache w r col)).
Proof.
  intros Hr col Hne Hf Hc.
  rewrite (objectValue_run _ _ _ _ Hr). fold col.
  rewrite format_error_with_cache, (formats_no_error _ _ _ _ Hne Hf) by done.
  cbn zeta. rewrite render_with_cache, diagnostic_with_cache by done.
  rewrite (render_cell _ _ _ Hc).
  eexists. split; [reflexivity|].
  split; [apply lookup_insert_eq|]. split; [|split; [|done]].
  - unfold cached.
    change (row_at (set_datum_attrs ?f ?w0) r) with (row_at w0 r).
    rewrite row_at_emit_all. apply cached_with_cache.
  - change (allocated (set_datum_attrs ?f ?w0)) with (allocated w0).
    by rewrite allocated_emit_all, allocated_with_cache.
Qed.

(** A call for a row that exists leaves the render object of the row and the
    column in the row's cache, whether it returns or raises. *)
Lemma objectValue_caches w column row r :
  data_lookup w row = Some r →
  let col := str_of (identifier column) in
  let w' := (TogaTable.tableView_objectValueForTableColumn_row_ column row w).1 in
  cached w' r col = Some (datum_of w r col) ∧
  allocated w' = match cached w r col with
                 | Some _ => allocated w
                 | None => S (allocated w)
                 end.
Proof.
  intros Hr col w'. destruct (objectValue_rows w column row r Hr) as [Hrows Hal].
  fold col in Hrows, Hal. fold w' in Hrows, Hal. split.
  - unfold cached, row_at. rewrite Hrows. apply cached_with_cache.
  - by rewrite Hal, allocated_with_cache.
Qed.

(** A value that cannot be rendered makes the call raise [ValueError]. *)
Lemma objectValue_raises w column row r :
  data_lookup w row = Some r →
  let col := str_of (identifier column) in
  col ≠ "_impl" →
  formats w r row col →
  is_cell (resolved w r col) = false →
  (TogaTable.tableView_objectValueForTableColumn_row_ column row w).2 =
  Raise (Exn ValueError []).
Proof.
  intros Hr col Hne Hf Hc. rewrite (objectValue_run _ _ _ _ Hr). fold col.
  rewrite format_error_with_cache, (formats_no_error _ _ _ _ Hne Hf) by done.
  cbn zeta. rewrite render_with_cache by done.
  by rewrite (render_not_cell _ _ _ Hc).
Qed.



(** The column [_impl] itself reads the cache back: its cell shows the dict
    of the row, with the render object the call has just entered in it. *)
Example impl_column_reads_cache :
  let w' := (TogaTable.tableView_objectValueForTableColumn_row_
               {| address := 0; identifier := at_ "_impl" |} 0 (example_world false)).1 in
  cached w' 10 "_impl" = Some 4%nat ∧
  datum_attrs w' !! 4%nat = Some {| label := "{'_impl': <TogaData#4>}"; icon := VNone |}.
Proof. vm_compute. split; reflexivity. Qed.


Lemma example_formats multiple r row col : formats (example_world multiple) r row col.
Proof.
  intros message v _ Hm.
  assert (missing_value (interface (example_world multiple)) = Configured (VStr "—")) as Hc
    by (by destruct multiple).
  congruence.
Qed.



(** C8, as the code has it: for a row that exists and a column identifier
    other than [_impl], when the value resolved for the cell is not a tuple
    of a length other than two and the diagnostic of an interface without
    missing value can be formatted, the method returns, and the render object
    has: for an (icon, value) pair, the first component as icon and the
    string form of the second as label; for a value with an [icon]
    attribute, the attribute bound to the factory of the interface, or [None]
    when the attribute has no [bind]; for any other value, [None] as icon. *)
Theorem icon_of_cell_value
    (w : World) (column : NSTableColumn) (row : Z) (r : nat) :
  data_lookup w row = Some r →
  let col := str_of (identifier column) in
  col ≠ "_impl" →
  formats w r row col →
  let value :=
    match attrs (row_at w r) !! col with
    | Some v => v
    | None =>
        match missing_value (interface w) with
        | Configured v => v
        | Unconfigured _ v => v
        end
    end in
  is_cell value = true →
  ∃ w' datum a,
    TogaTable.tableView_objectValueForTableColumn_row_ column row w = (w', Return datum) ∧
    datum_attrs w' !! datum = Some a ∧
    match value with
    | VTuple [i; v] => icon a = i ∧ label a = PyStr.str v
    | VTuple _ => False
    | VObj _ _ (Some i) _ =>
        icon a = match i with
                 | VObj _ _ _ (Some b) => b (factory (interface w))
                 | _ => VNone
                 end
    | _ => icon a = VNone
    end.
Proof.
  intros Hr col Hne Hf value Hc.
  assert (resolved w r col = value) as Hv by (by apply resolved_attrs).
  rewrite <- Hv in Hc.
  destruct (objectValue_returns w column row r Hr Hne Hf Hc) as (w' & Hrun & Ha & _).
  eexists w', _, _. split; [exact Hrun|]. split; [exact Ha|].
  cbn [icon label]. fold col. rewrite Hv in Hc |- *.
  destruct value as [| | | |vs|s p [i|] b|items]; try reflexivity.
  destruct vs as [|i [|v [|x vs]]]; try discriminate Hc. done.
Qed.

(** A row whose "name" has an icon attribute. *)
Lemma icon_of_cell_value_witness :
  let w := example_world false in
  data_lookup w 3 = Some 13%nat ∧
  "name" ≠ "_impl" ∧
  formats w 13 3 "name" ∧
  is_cell (resolved w 13 "name") = true ∧
  ∃ w' datum a,
    TogaTable.tableView_objectValueForTableColumn_row_ name_column 3 w = (w', Return datum) ∧
    datum_attrs w' !! datum = Some a ∧
    icon a = VObj "<NSImage>" "<NSImage>" None None.
Proof.
  intros w.
  assert ("name" ≠ "_impl") as Hne by discriminate.
  split; [reflexivity|]. split; [exact Hne|].
  split; [apply example_formats|]. split; [reflexivity|].
  exact (icon_of_cell_value w name_column 3 13 eq_refl Hne
           (example_formats false 13 3 "name") eq_refl).
Defined.

(** C8, as stated, fails for a row whose attribute is a tuple of three: the
    unpacking raises [ValueError], and the method lets it through. *)
Lemma icon_of_triple_counterexample :
  let w := example_world false in
  data_lookup w 2 = Some 12%nat ∧
  resolved w 12 "name" = VTuple [VNone; VStr "Bo"; VInt 3] ∧
  (TogaTable.tableView_objectValueForTableColumn_row_ name_column 2 w).2 =
    Raise (Exn ValueError []).
Proof.
  intros w. split; [reflexivity|]. split; [reflexivity|].
  assert ("name" ≠ "_impl") as Hne by discriminate.
  exact (objectValue_raises w name_column 2 12 eq_refl Hne
           (example_formats false 12 2 "name") eq_refl).
Qed.




(** Two calls for the same cell, the row's "name" changed in between: the
    same render object, with the label of the value at each call. *)
Example second_call_same_object :
  let w := example_world false in
  let '(w1, first) := TogaTable.tableView_objectValueForTableColumn_row_ name_column 0 w in
  let w2 := set_rows (<[10%nat := {| attrs := {[ "name" := VStr "Eve" ]};
                                     _impl := _impl (row_at w1 10) |}]>) w1 in
  let '(w3, second) := TogaTable.tableView_objectValueForTableColumn_row_ name_column 0 w2 in
  first = Return 4%nat ∧ second = Return 4%nat ∧
  label <$> datum_attrs w1 !! 4%nat = Some "Ana" ∧
  label <$> datum_attrs w3 !! 4%nat = Some "Eve" ∧
  allocated w3 = allocated w1.
Proof. vm_compute. repeat split; reflexivity. Qed.


(** * Further properties *)

(** ** Creation *)

(** The fields of the store after [create], from the store after its
    [_add_column] calls. *)
Lemma create_fields w :
  let w1 := with_columns (zip (headings (interface w)) (_accessors (interface w)))
              (before_columns w) in
  (Table.create w).2 = Return tt ∧
  impl (Table.create w).1 = impl w1 ∧
  tableColumns (table (Table.create w).1) = tableColumns (table w1) ∧
  allowsMultipleSelection (table (Table.create w).1) = allowsMultipleSelection (table w1) ∧
  headerCell_stringValue (Table.create w).1 = headerCell_stringValue w1 ∧
  dataCell (Table.create w).1 = dataCell w1 ∧
  allocated (Table.create w).1 = allocated w1 ∧
  events (Table.create w).1 = events w1 ++ [add_constraints].
Proof.
  intros w1. unfold Table.create.
  rewrite bind_unfold, modify_run, bind_unfold, get_run.
  rewrite bind_unfold, add_columns_run.
  fold (before_columns w).
  change (interface (before_columns w)) with (interface w). fold w1.
  repeat split.
Qed.

Lemma with_columns_cons h a l w :
  with_columns ((h, a) :: l) w = with_columns l (with_column h a w).
Proof. reflexivity. Qed.

Lemma with_columns_columns l w :
  columns (impl (with_columns l w)) =
    columns (impl w) ++
    imap (λ k p, {| address := (allocated w + 2 * k)%nat; identifier := at_ p.2 |}) l ∧
  tableColumns (table (with_columns l w)) =
    tableColumns (table w) ++
    imap (λ k p, {| address := (allocated w + 2 * k)%nat; identifier := at_ p.2 |}) l ∧
  allocated (with_columns l w) = (allocated w + 2 * length l)%nat ∧
  events (with_columns l w) = events w ∧
  allowsMultipleSelection (table (with_columns l w)) = allowsMultipleSelection (table w).
Proof.
  revert w. induction l as [|[h a] l IH]; intros w.
  - cbn. rewrite !app_nil_r. repeat split. lia.
  - rewrite with_columns_cons.
    destruct (IH (with_column h a w)) as (Hc & Ht & Ha & He & Hm).
    rewrite Hc, Ht, Ha, He, Hm. cbn [imap length].
    assert (imap (λ k p, {| address := (allocated (with_column h a w) + 2 * k)%nat;
                            identifier := at_ p.2 |}) l =
            imap ((λ k p, {| address := (allocated w + 2 * k)%nat;
                             identifier := at_ p.2 |}) ∘ S) l)
      as ->.
    { apply imap_ext. intros k p _. cbn. f_equal. lia. }
    cbn. rewrite <- !app_assoc. cbn. rewrite Nat.add_0_r.
    repeat split. lia.
Qed.

Lemma with_columns_identifier l w a :
  column_identifiers (impl (with_columns l w)) !! a =
  if decide (a ∈ l.*2) then Some (at_ a) else column_identifiers (impl w) !! a.
Proof.
  revert w. induction l as [|[h b] l IH]; intros w.
  - cbn. rewrite decide_False; [done|]. apply not_elem_of_nil.
  - rewrite with_columns_cons.
    rewrite IH. cbn [fmap list_fmap snd].
    destruct (decide (a ∈ l.*2)) as [Hin|Hnin].
    + rewrite decide_True; [done|]. by right.
    + cbn. rewrite lookup_insert. destruct (decide (b = a)) as [->|Hne].
      * rewrite decide_True; [done|]. left.
      * rewrite decide_False; [done|].
        intros [?|?]%elem_of_cons; congruence.
Qed.

Lemma with_columns_header_old l w n :
  (n < allocated w)%nat →
  headerCell_stringValue (with_columns l w) !! n = headerCell_stringValue w !! n.
Proof.
  revert w. induction l as [|[h a] l IH]; intros w Hn; [done|].
  rewrite with_columns_cons.
  rewrite IH by (cbn; lia). cbn. rewrite lookup_insert_ne; [done|lia].
Qed.

Lemma with_columns_header l w k h a :
  l !! k = Some (h, a) →
  headerCell_stringValue (with_columns l w) !! (allocated w + 2 * k)%nat = Some h.
Proof.
  revert w k. induction l as [|[h' a'] l IH]; intros w k Hk; [done|].
  rewrite with_columns_cons.
  destruct k as [|k].
  - injection Hk as -> ->. rewrite with_columns_header_old by (cbn; lia).
    cbn. rewrite Nat.add_0_r. apply lookup_insert_eq.
  - cbn in Hk. specialize (IH (with_column h' a' w) k Hk).
    cbn in IH. replace (allocated w + 2 * S k)%nat with (S (S (allocated w + (k + (k + 0)))))%nat
      by lia.
    exact IH.
Qed.

(** X1: [create] leaves, in the native table and in the adapter's list
    alike, one new column for each pair of [zip(headings, accessors)], in
    that order, with the accessor as identifier and the heading as header
    text, whatever columns the adapter had; [column_identifiers] maps
    exactly those accessors, each to its identifier; and the native table
    allows multiple selection as the interface says. *)
Theorem create_columns (w : World) :
  let l := zip (headings (interface w)) (_accessors (interface w)) in
  let w' := (Table.create w).1 in
  columns (impl w') =
    imap (λ k p, {| address := (allocated w + 2 * k)%nat; identifier := at_ p.2 |}) l ∧
  tableColumns (table w') = columns (impl w') ∧
  (∀ a, column_identifiers (impl w') !! a =
        if decide (a ∈ l.*2) then Some (at_ a) else None) ∧
  (∀ k h a, l !! k = Some (h, a) →
            headerCell_stringValue w' !! (allocated w + 2 * k)%nat = Some h) ∧
  allowsMultipleSelection (table w') = multiple_select (interface w).
Proof.
  intros l w'. destruct (create_fields w) as (_ & Hi & Ht & Hm & Hh & _).
  fold l in Hi, Ht, Hm, Hh. fold w' in Hi, Ht, Hm, Hh.
  destruct (with_columns_columns l (before_columns w)) as (Hc & Hc' & _ & _ & Hm').
  rewrite Hi, Ht, Hm, Hh, Hc, Hc', Hm'. cbn [before_columns columns impl tableColumns table app].
  split; [done|]. split; [done|]. split.
  - intros a. rewrite with_columns_identifier. cbn. by rewrite lookup_empty.
  - split; [|done]. intros k h a Hk.
    by apply (with_columns_header l (before_columns w) k h a).
Qed.

(** X2: [create] sends the native table neither [sizeToFit] nor
    [reloadData], however many columns it adds: the one thing it emits is
    [add_constraints], and it returns. *)
Theorem create_emits_add_constraints (w : World) :
  Table.create w = ((Table.create w).1, Return tt) ∧
  events (Table.create w).1 = events w ++ [add_constraints].
Proof.
  destruct (create_fields w) as (Hr & _ & _ & _ & _ & _ & _ & He).
  split.
  - rewrite <- Hr. by destruct (Table.create w).
  - rewrite He.
    by destruct (with_columns_columns
                   (zip (headings (interface w)) (_accessors (interface w)))
                   (before_columns w)) as (_ & _ & _ & -> & _).
Qed.

(** ** What the data source method leaves alone *)

Lemma with_cache_frame w r col :
  interface (with_cache w r col) = interface w ∧
  native (with_cache w r col) = native w ∧
  table (with_cache w r col) = table w ∧
  impl (with_cache w r col) = impl w ∧
  headerCell_stringValue (with_cache w r col) = headerCell_stringValue w ∧
  dataCell (with_cache w r col) = dataCell w ∧
  datum_attrs (with_cache w r col) = datum_attrs w ∧
  events (with_cache w r col) = events w ∧
  (∀ r', attrs (row_at (with_cache w r col) r') = attrs (row_at w r')) ∧
  (∀ r', r' ≠ r → row_at (with_cache w r col) r' = row_at w r').
Proof.
  unfold with_cache. destruct (cached w r col); [by repeat split|].
  repeat split.
  - intros r'. rewrite row_at_set_allocated, row_at_insert. by case_decide; subst.
  - intros r' Hr. rewrite row_at_set_allocated, row_at_insert. by rewrite decide_False.
Qed.

Lemma emit_all_frame l w :
  interface (emit_all l w) = interface w ∧
  native (emit_all l w) = native w ∧
  table (emit_all l w) = table w ∧
  impl (emit_all l w) = impl w ∧
  headerCell_stringValue (emit_all l w) = headerCell_stringValue w ∧
  dataCell (emit_all l w) = dataCell w ∧
  datum_attrs (emit_all l w) = datum_attrs w ∧
  rows (emit_all l w) = rows w ∧
  allocated (emit_all l w) = allocated w.
Proof.
  revert w. induction l as [|e l IH]; intros w; [done|].
  change (emit_all (e :: l) w) with (emit_all l (emit e w)).
  destruct (IH (emit e w)) as (-> & -> & -> & -> & -> & -> & -> & -> & ->).
  done.
Qed.

(** The store after a call of the data source method, in all cases. *)
Lemma objectValue_store w column row :
  let col := str_of (identifier column) in
  (TogaTable.tableView_objectValueForTableColumn_row_ column row w).1 =
  match data_lookup w row with
  | None => w
  | Some r =>
      let w1 := with_cache w r col in
      match format_error w1 r row col with
      | Some _ => w1
      | None =>
          let w2 := emit_all (diagnostic w1 r row col) w1 in
          match render w1 r col with
          | Some a => set_datum_attrs (insert (datum_of w r col) a) w2
          | None => w2
          end
      end
  end.
Proof.
  intros col. destruct (data_lookup w row) as [r|] eqn:Hr.
  - rewrite (objectValue_run _ _ _ _ Hr). fold col. cbn zeta.
    destruct (format_error _ _ _ _); [done|]. by destruct (render _ _ _).
  - by destruct (objectValue_no_row w column row Hr) as [e ->].
Qed.

(** What a call of the data source method leaves alone. *)
Lemma objectValue_keeps (w : World) (column : NSTableColumn) (row : Z) :
  let w' := (TogaTable.tableView_objectValueForTableColumn_row_ column row w).1 in
  interface w' = interface w ∧ native w' = native w ∧ table w' = table w ∧
  impl w' = impl w ∧
  headerCell_stringValue w' = headerCell_stringValue w ∧ dataCell w' = dataCell w ∧
  (∀ r, attrs (row_at w' r) = attrs (row_at w r)) ∧
  (∀ r, data_lookup w row ≠ Some r → row_at w' r = row_at w r) ∧
  (∀ d, (∀ r, data_lookup w row = Some r → d ≠ datum_of w r (str_of (identifier column))) →
        datum_attrs w' !! d = datum_attrs w !! d) ∧
  (allocated w ≤ allocated w')%nat.
Proof.
  intros w'. unfold w'. rewrite objectValue_store.
  destruct (data_lookup w row) as [r|] eqn:Hr; [|by repeat split].
  set (col := str_of (identifier column)). cbn zeta.
  set (w0 := with_cache w r col).
  assert (∀ l,
          let w1 := emit_all l w0 in
          interface w1 = interface w ∧ native w1 = native w ∧ table w1 = table w ∧
          impl w1 = impl w ∧ headerCell_stringValue w1 = headerCell_stringValue w ∧
          dataCell w1 = dataCell w ∧
          (∀ r0, attrs (row_at w1 r0) = attrs (row_at w r0)) ∧
          (∀ r0, Some r ≠ Some r0 → row_at w1 r0 = row_at w r0) ∧
          datum_attrs w1 = datum_attrs w ∧
          (allocated w ≤ allocated w1)%nat) as Hframe.
  { intros l w1.
    destruct (emit_all_frame l w0) as (Hi & Hn & Ht & Him & Hh & Hd & Hda & Hro & Hal).
    destruct (with_cache_frame w r col)
      as (Hi' & Hn' & Ht' & Him' & Hh' & Hd' & Hda' & _ & Hat' & Hro').
    fold w0 in Hi', Hn', Ht', Him', Hh', Hd', Hda', Hat', Hro'.
    fold w1 in Hi, Hn, Ht, Him, Hh, Hd, Hda, Hro, Hal.
    assert (∀ r', row_at w1 r' = row_at w0 r') as Hrow
      by (intros r'; unfold row_at; by rewrite Hro).
    rewrite Hi, Hn, Ht, Him, Hh, Hd, Hda. repeat split; try done.
    - intros r0. by rewrite Hrow.
    - intros r0 Hne. rewrite Hrow. apply Hro'. congruence.
    - rewrite Hal. unfold w0. rewrite allocated_with_cache.
      destruct (cached w r col); lia. }
  destruct (format_error w0 r row col) as [e|].
  { destruct (Hframe []) as (H1 & H2 & H3 & H4 & H5 & H6 & H7 & H8 & H9 & H10).
    change (emit_all [] w0) with w0 in H1, H2, H3, H4, H5, H6, H7, H8, H9, H10.
    repeat split; try done. intros d _. by rewrite H9. }
  destruct (Hframe (diagnostic w0 r row col))
    as (H1 & H2 & H3 & H4 & H5 & H6 & H7 & H8 & H9 & H10).
  destruct (render w0 r col) as [a|].
  - repeat split; try done.
    intros d Hd0. cbn. rewrite lookup_insert_ne; [by rewrite H9|].
    intros Heq. by apply (Hd0 r).
  - repeat split; try done. intros d _. by rewrite H9.
Qed.

(** A call of the data source method keeps the builtin [format]. *)
Lemma str_format_emit_all l w : str_format (emit_all l w) = str_format w.
Proof. revert w. induction l as [|e l IH]; intros w; cbn; [done|]. by rewrite IH. Qed.

Lemma objectValue_str_format w column row :
  str_format (TogaTable.tableView_objectValueForTableColumn_row_ column row w).1 =
  str_format w.
Proof.
  rewrite objectValue_store. destruct (data_lookup w row) as [r|]; [|done]. cbn zeta.
  destruct (format_error _ _ _ _);
    [|destruct (render _ _ _);
      [change (str_format (set_datum_attrs ?f ?w0)) with (str_format w0)|];
      rewrite str_format_emit_all];
    apply str_format_with_cache.
Qed.

(** X3: a call of the data source method changes nothing of the interface,
    of the native views and of the adapter's columns and identifiers; it
    changes no attribute of any row, no [_impl] but that of the row it is
    called for, and the [attrs] of no render object but the one of its cell;
    and it frees no object. *)
Theorem objectValue_frame (w : World) (column : NSTableColumn) (row : Z) :
  let w' := (TogaTable.tableView_objectValueForTableColumn_row_ column row w).1 in
  interface w' = interface w ∧ native w' = native w ∧ table w' = table w ∧
  impl w' = impl w ∧
  headerCell_stringValue w' = headerCell_stringValue w ∧ dataCell w' = dataCell w ∧
  (∀ r, attrs (row_at w' r) = attrs (row_at w r)) ∧
  (∀ r, data_lookup w row ≠ Some r → row_at w' r = row_at w r) ∧
  (∀ d, (∀ r, data_lookup w row = Some r → d ≠ datum_of w r (str_of (identifier column))) →
        datum_attrs w' !! d = datum_attrs w !! d) ∧
  (allocated w ≤ allocated w')%nat.
Proof. apply objectValue_keeps. Qed.

(** ** Rows that are not there, and the row count *)

Lemma list_getitem_None {A} (l : list A) (i : Z) :
  list_getitem l i = None ↔ i < - Z.of_nat (length l) ∨ Z.of_nat (length l) ≤ i.
Proof.
  unfold list_getitem. destruct (0 <=? i) eqn:H0.
  - apply Z.leb_le in H0. rewrite lookup_ge_None. lia.
  - apply Z.leb_gt in H0. destruct (- Z.of_nat (length l) <=? i) eqn:H1.
    + apply Z.leb_le in H1. rewrite lookup_ge_None. lia.
    + apply Z.leb_gt in H1. split; [lia|done].
Qed.

Lemma data_getitem_error w i :
  data_lookup w i = None → data_getitem i w = (w, Raise (data_error w)).
Proof.
  unfold data_lookup, data_getitem, data_error. rewrite bind_unfold, get_run.
  destruct (data (interface w)) as [l|]; cbn; [|done]. by intros ->.
Qed.

(** X4: for a row index outside the data ([row >= len(data)] or
    [row < -len(data)]) the data source method raises [IndexError], and for
    an interface without data [TypeError]; in both cases the store is left
    as it was: no cache and no render object is created. *)
Theorem objectValue_without_row (w : World) (column : NSTableColumn) (row : Z) :
  match data (interface w) with
  | Some l => row < - Z.of_nat (length l) ∨ Z.of_nat (length l) ≤ row
  | None => True
  end →
  TogaTable.tableView_objectValueForTableColumn_row_ column row w =
  (w, Raise (Exn match data (interface w) with
                 | Some _ => IndexError
                 | None => TypeError
                 end [])).
Proof.
  intros H.
  assert (data_lookup w row = None) as Hr.
  { unfold data_lookup. destruct (data (interface w)) as [l|]; [|done].
    by apply list_getitem_None. }
  rewrite method_steps. erewrite bind_raise by (by apply data_getitem_error).
  unfold data_error. by destruct (data (interface w)).
Qed.

(** The example table has five rows: there is no row 5. *)
Lemma objectValue_without_row_witness :
  TogaTable.tableView_objectValueForTableColumn_row_ name_column 5 (example_world false) =
  (example_world false, Raise (Exn IndexError [])).
Proof.
  apply (objectValue_without_row (example_world false) name_column 5).
  vm_compute. right. intros H. discriminate H.
Defined.

(** X5: the rows the data source method finds are those the row count
    announces: for a row index that is not negative, [interface.data[row]]
    gives a row exactly when the index is below what
    [numberOfRowsInTableView_] returns. *)
Theorem rows_below_count (w : World) (row n : Z) :
  TogaTable.numberOfRowsInTableView_ w = (w, Return n) →
  0 ≤ row →
  is_Some (data_lookup w row) ↔ row < n.
Proof.
  unfold TogaTable.numberOfRowsInTableView_, data_lookup.
  rewrite bind_unfold, get_run.
  destruct (data (interface w)) as [l|]; cbn.
  - rewrite <- not_eq_None_Some, list_getitem_None.
    destruct l as [|r l]; cbn; intros [= <-] H0; lia.
  - intros [= <-] H0. split; [by intros [? ?]|lia].
Qed.

Lemma rows_below_count_witness :
  is_Some (data_lookup (example_world false) 4) ↔ 4 < 5.
Proof.
  apply (rows_below_count (example_world false) 4 5); [vm_compute; reflexivity|lia].
Defined.

(** ** The diagnostic, and rendering twice *)

Lemma impl_with_cache w r col : is_Some (_impl (row_at (with_cache w r col) r)).
Proof.
  pose proof (cached_with_cache w r col) as H. unfold cached in H.
  destruct (_impl (row_at (with_cache w r col) r)); [by eexists|done].
Qed.

Lemma formatted_impl w r row col :
  col = "_impl" → formatted (with_cache w r col) r row col = None.
Proof.
  intros ->. unfold formatted, row_getattr. rewrite decide_True by done.
  by destruct (impl_with_cache w r "_impl") as [d ->].
Qed.

(** X6: what a call of the data source method for a row that exists prints.
    For the column identifier [_impl] it prints nothing: the attribute is
    there, the call has just made sure of it. For any other column
    identifier, when the row lacks the attribute and the interface has no
    missing value configured, the call formats the interface's message with
    the row index and the column identifier: it prints the line, and emits
    nothing else; or, when the formatting raises, the call raises the same
    exception, having printed nothing and assigned no [attrs]. In all other
    cases it prints nothing. *)
Theorem objectValue_prints (w : World) (column : NSTableColumn) (row : Z) (r : nat) :
  data_lookup w row = Some r →
  let col := str_of (identifier column) in
  let call := TogaTable.tableView_objectValueForTableColumn_row_ column row w in
  if decide (col = "_impl") then events call.1 = events w
  else
    match attrs (row_at w r) !! col, missing_value (interface w) with
    | None, Unconfigured message _ =>
        match str_format w message row col with
        | Return line => events call.1 = events w ++ [print line]
        | Raise e =>
            call.2 = Raise e ∧ events call.1 = events w ∧
            datum_attrs call.1 = datum_attrs w
        end
    | _, _ => events call.1 = events w
    end.
Proof.
  intros Hr col call.
  destruct (with_cache_frame w r col) as (_ & _ & _ & _ & _ & _ & Hda & He & _).
  assert (∀ l a,
            events (set_datum_attrs (insert (datum_of w r col) a)
                      (emit_all l (with_cache w r col))) = events w ++ l) as Hev
    by (intros l a; cbn [events set_datum_attrs]; by rewrite events_emit_all, He).
  assert (∀ l, events (emit_all l (with_cache w r col)) = events w ++ l) as Hev'
    by (intros l; by rewrite events_emit_all, He).
  unfold call. rewrite (objectValue_run _ _ _ _ Hr). fold col.
  case_decide as Hcol.
  - unfold format_error, diagnostic. rewrite formatted_impl by done. cbn zeta.
    destruct (render _ _ _); cbn [fst]; [rewrite Hev|rewrite Hev']; apply app_nil_r.
  - unfold format_error, diagnostic.
    rewrite formatted_with_cache, formatted_attrs by done.
    destruct (attrs (row_at w r) !! col) as [v|];
      [|destruct (missing_value (interface w)) as [v|message v];
        [|destruct (str_format w message row col) as [line|e]]];
      try (cbn zeta; destruct (render _ _ _); cbn [fst];
           [rewrite Hev|rewrite Hev']; by rewrite ?app_nil_r).
    cbn [fst snd]. by rewrite He, Hda.
Qed.

(** The first row of the example table has no "age": with no missing value
    configured, the call for its "age" cell prints the message. *)
Lemma objectValue_prints_witness :
  let w := set_interface (without_missing_value "missing attribute" (VStr "?"))
             (example_world false) in
  data_lookup w 0 = Some 10%nat ∧
  events (TogaTable.tableView_objectValueForTableColumn_row_ age_column 0 w).1 =
  events w ++ [print "missing attribute"].
Proof.
  intros w. split; [reflexivity|].
  exact (objectValue_prints w age_column 0 10 eq_refl).
Defined.

Lemma set_datum_attrs_id f w :
  f (datum_attrs w) = datum_attrs w → set_datum_attrs f w = w.
Proof. destruct w. unfold set_datum_attrs. cbn. by intros ->. Qed.

Lemma with_cache_hit w r col d : cached w r col = Some d → with_cache w r col = w.
Proof. unfold with_cache. by intros ->. Qed.

Lemma resolved_frame w w' r col :
  col ≠ "_impl" →
  interface w' = interface w → attrs (row_at w' r) = attrs (row_at w r) →
  str_format w' = str_format w →
  resolved w' r col = resolved w r col ∧
  (∀ row, diagnostic w' r row col = diagnostic w r row col) ∧
  (∀ row, format_error w' r row col = format_error w r row col) ∧
  render w' r col = render w r col.
Proof.
  intros Hne Hi Ha Hs.
  assert (resolved w' r col = resolved w r col) as Hres
    by (rewrite !resolved_attrs by done; by rewrite Hi, Ha).
  assert (∀ row, formatted w' r row col = formatted w r row col) as Hfor
    by (intros row; rewrite !formatted_attrs by done; by rewrite Hi, Ha, Hs).
  unfold render, diagnostic, format_error. rewrite Hres, Hi.
  repeat split; try done; intros row; by rewrite Hfor.
Qed.

(** X7: rendering a cell again changes nothing: after a call that returned
    (for a column identifier other than [_impl], a value that can be
    rendered and a diagnostic that can be formatted), a second call for the
    same row and column returns the same render object and leaves the store
    as the first call left it, but for the diagnostic, which is printed
    again when there is one. *)
Theorem objectValue_twice (w : World) (column : NSTableColumn) (row : Z) (r : nat) :
  data_lookup w row = Some r →
  let col := str_of (identifier column) in
  let call := TogaTable.tableView_objectValueForTableColumn_row_ column row in
  col ≠ "_impl" →
  formats w r row col →
  is_cell (resolved w r col) = true →
  call (call w).1 = (emit_all (diagnostic w r row col) (call w).1, (call w).2) ∧
  ∃ datum, (call w).2 = Return datum.
Proof.
  intros Hr col call Hne Hf Hc.
  destruct (objectValue_returns w column row r Hr Hne Hf Hc)
    as (w1 & Hrun & Ha & Hcached & _).
  fold col in Hrun, Ha, Hcached. fold call in Hrun.
  destruct (objectValue_keeps w column row) as (Hi & _ & _ & _ & _ & _ & Hat & _).
  pose proof (objectValue_str_format w column row) as Hs.
  fold call in Hi, Hat, Hs. rewrite Hrun in Hi, Hat, Hs |- *. cbn [fst snd] in *.
  split; [|by eexists].
  assert (data_lookup w1 row = Some r) as Hr1 by (unfold data_lookup; by rewrite Hi).
  destruct (resolved_frame w w1 r col Hne Hi (Hat r) Hs) as (Hres & Hdiag & Herr & Hren).
  unfold call. rewrite (objectValue_run _ _ _ _ Hr1). fold col.
  rewrite (with_cache_hit _ _ _ _ Hcached).
  rewrite Herr, (formats_no_error _ _ _ _ Hne Hf). cbn zeta.
  rewrite Hren, (render_cell _ _ _ Hc), Hdiag.
  assert (datum_of w1 r col = datum_of w r col) as ->
    by (unfold datum_of at 1; by rewrite Hcached).
  f_equal. apply set_datum_attrs_id.
  destruct (emit_all_frame (diagnostic w r row col) w1) as (_ & _ & _ & _ & _ & _ & -> & _).
  by apply insert_id.
Qed.

Lemma plain_formats w r row col : str_format w = plain_format → formats w r row col.
Proof. intros Hs message v _ _. rewrite Hs. by eexists. Qed.

(** The "age" cell of the first row of the example table, which has no
    "age", with no missing value configured: the message is printed by the
    first call and again by the second. *)
Lemma objectValue_twice_witness :
  let w := set_interface (without_missing_value "missing attribute" (VStr "?"))
             (example_world false) in
  let call := TogaTable.tableView_objectValueForTableColumn_row_ age_column 0 in
  data_lookup w 0 = Some 10%nat ∧
  "age" ≠ "_impl" ∧
  formats w 10 0 "age" ∧
  is_cell (resolved w 10 "age") = true ∧
  call (call w).1 = (emit_all [print "missing attribute"] (call w).1, (call w).2) ∧
  ∃ datum, (call w).2 = Return datum.
Proof.
  intros w call.
  assert ("age" ≠ "_impl") as Hne by discriminate.
  assert (formats w 10 0 "age") as Hf by (by apply plain_formats).
  split; [reflexivity|]. split; [exact Hne|].
  split; [exact Hf|]. split; [reflexivity|].
  exact (objectValue_twice w age_column 0 10 eq_refl Hne Hf eq_refl).
Defined.

(** ** A selection change, in all cases *)

Lemma selection_loop_fails w n current_index selection :
  Exists (λ i, data_lookup w (Z.of_N i) = None)
    (enumerate (selectedRowIndexes (table w)) n current_index) →
  TogaTable.selection_loop n current_index selection w = (w, Raise (data_error w)).
Proof.
  revert current_index selection.
  induction n as [|n IH]; intros c acc He.
  - by apply Exists_nil in He.
  - cbn [enumerate TogaTable.selection_loop] in He |- *.
    destruct (data_lookup w (Z.of_N c)) as [r|] eqn:Hr.
    + erewrite bind_return by (by apply data_getitem_run).
      rewrite (bind_return _ _ _ _ _ (get_run _)).
      apply IH. apply Exists_cons in He as [He|He]; [congruence|done].
    + eapply bind_raise. by apply data_getitem_error.
Qed.

Lemma invalid_selection_ascending w :
  ¬ valid_selection w →
  Exists (λ i, data_lookup w (Z.of_N i) = None) (ascending (selectedRowIndexes (table w))).
Proof.
  unfold valid_selection. intros Hn.
  apply not_Forall_Exists in Hn; [|apply _].
  apply Exists_exists in Hn as (i & Hi & Hnone). apply Exists_exists.
  exists i. split.
  - by apply ascending_elem_of, elem_of_elements.
  - cbn in Hnone. destruct (data_lookup w (Z.of_N i)); [|done].
    destruct Hnone. by eexists.
Qed.

(** A selection change with a selected index that has no row. *)
Lemma selectionDidChange_invalid w notification :
  ¬ valid_selection w →
  TogaTable.tableViewSelectionDidChange_ notification w = (w, Raise (data_error w)).
Proof.
  intros Hn. rewrite selectionDidChange_steps.
  rewrite (bind_return _ _ _ _ _ (get_run _)).
  eapply bind_raise. apply selection_loop_fails.
  rewrite enumerate_ascending. by apply invalid_selection_ascending.
Qed.

(** A selection change with an active row index that has no row. *)
Lemma selectionDidChange_no_active_row w notification :
  valid_selection w → active_row w = None →
  TogaTable.tableViewSelectionDidChange_ notification w =
  (set_interface (set__selection (aggregate w)) w, Raise (data_error w)).
Proof.
  intros Hv Ha. rewrite selectionDidChange_steps.
  rewrite (bind_return _ _ _ _ _ (get_run _)).
  erewrite bind_return; cycle 1.
  { apply selection_loop_run. rewrite enumerate_ascending.
    by apply valid_selection_ascending. }
  rewrite enumerate_ascending. cbn [app].
  rewrite (bind_return _ _ _ _ _ (get_run _)).
  erewrite bind_return by apply store_selection_run.
  fold (aggregate w).
  rewrite (bind_return _ _ _ _ _ (get_run _)).
  unfold active_row in Ha.
  change (selectedRow (table (set_interface (set__selection (aggregate w)) w)))
    with (selectedRow (table w)).
  destruct (bool_decide (selectedRow (table w) = -1)); [done|].
  destruct (data_lookup w (selectedRow (table w))) as [r|] eqn:Hr; [done|].
  erewrite (bind_raise (data_getitem _ ≫= _)); [reflexivity|].
  eapply bind_raise.
  by apply (data_getitem_error (set_interface (set__selection (aggregate w)) w)).
Qed.

(** The store after a selection change, in all cases. *)
Lemma selectionDidChange_store w notification :
  (TogaTable.tableViewSelectionDidChange_ notification w).1 =
  if decide (valid_selection w) then
    match active_row w with
    | Some selected =>
        emit_all (callback w selected) (set_interface (set__selection (aggregate w)) w)
    | None => set_interface (set__selection (aggregate w)) w
    end
  else w.
Proof.
  case_decide as Hv.
  - destruct (active_row w) as [selected|] eqn:Ha.
    + by rewrite (selectionDidChange_run _ _ _ Hv Ha).
    + by rewrite (selectionDidChange_no_active_row _ _ Hv Ha).
  - by rewrite (selectionDidChange_invalid _ _ Hv).
Qed.

(** X8: when a selected index has no row in the data (the data is shorter
    than the toolkit's selection, or absent), the selection handler raises
    [IndexError] ([TypeError] without data) and leaves the store as it was:
    [interface._selection] is not updated and [on_select] is not called. *)
Theorem selection_change_without_row
    (w : World) (notification : TogaTable.NSNotification) (i : N) :
  i ∈ selectedRowIndexes (table w) →
  data_lookup w (Z.of_N i) = None →
  TogaTable.tableViewSelectionDidChange_ notification w =
  (w, Raise (Exn match data (interface w) with
                 | Some _ => IndexError
                 | None => TypeError
                 end [])).
Proof.
  intros Hi Hnone. rewrite selectionDidChange_invalid.
  - unfold data_error. by destruct (data (interface w)).
  - unfold valid_selection. rewrite Forall_forall. intros Hv.
    destruct (Hv i) as [r Hr]; [by apply elem_of_elements|]. congruence.
Qed.

(** Row 7 selected in the table of five rows. *)
Lemma selection_change_without_row_witness :
  let w := select {[7]}%N 7 (example_world false) in
  TogaTable.tableViewSelectionDidChange_ TogaTable.NSTableViewSelectionDidChangeNotification w =
  (w, Raise (Exn IndexError [])).
Proof.
  intros w.
  apply (selection_change_without_row w
           TogaTable.NSTableViewSelectionDidChangeNotification 7%N).
  - exact (proj2 (elem_of_singleton (C:=gset N) 7%N 7%N) eq_refl).
  - reflexivity.
Defined.

(** X9: when the selected indexes have rows but the active row index has
    none (and is not -1), the selection handler has already stored the new
    [interface._selection] when it raises [IndexError]: the selection is
    updated, and [on_select] is not called. *)
Theorem selection_change_without_active_row
    (w : World) (notification : TogaTable.NSNotification) :
  valid_selection w →
  selectedRow (table w) ≠ -1 →
  data_lookup w (selectedRow (table w)) = None →
  ∃ w',
    TogaTable.tableViewSelectionDidChange_ notification w =
      (w', Raise (Exn match data (interface w) with
                      | Some _ => IndexError
                      | None => TypeError
                      end [])) ∧
    _selection (interface w') = aggregate w ∧
    events w' = events w.
Proof.
  intros Hv Hm Hnone.
  assert (active_row w = None) as Ha.
  { unfold active_row. rewrite bool_decide_false by done. by rewrite Hnone. }
  rewrite (selectionDidChange_no_active_row _ _ Hv Ha).
  exists (set_interface (set__selection (aggregate w)) w).
  split; [|done]. unfold data_error. by destruct (data (interface w)).
Qed.

(** Row 2 selected and row 9 active, in the table of five rows. *)
Lemma selection_change_without_active_row_witness :
  let w := select {[2]}%N 9 (example_world false) in
  ∃ w',
    TogaTable.tableViewSelectionDidChange_
      TogaTable.NSTableViewSelectionDidChangeNotification w =
      (w', Raise (Exn IndexError [])) ∧
    _selection (interface w') = SelRow 12 ∧
    events w' = events w.
Proof.
  intros w.
  assert (valid_selection w) as Hv.
  { unfold valid_selection. apply Forall_forall. intros i Hi.
    apply elem_of_elements in Hi. change (i ∈ ({[2%N]} : gset N)) in Hi.
    apply elem_of_singleton in Hi. subst i. by eexists. }
  assert (aggregate w = SelRow 12) as <- by (vm_compute; reflexivity).
  apply (selection_change_without_active_row w
           TogaTable.NSTableViewSelectionDidChangeNotification Hv).
  - discriminate.
  - reflexivity.
Defined.

Lemma selection_stored_frame s w :
  let w' := set_interface (set__selection s) w in
  rows w' = rows w ∧ native w' = native w ∧ table w' = table w ∧ impl w' = impl w ∧
  datum_attrs w' = datum_attrs w ∧
  headerCell_stringValue w' = headerCell_stringValue w ∧ dataCell w' = dataCell w ∧
  allocated w' = allocated w ∧
  data (interface w') = data (interface w) ∧
  headings (interface w') = headings (interface w) ∧
  _accessors (interface w') = _accessors (interface w) ∧
  multiple_select (interface w') = multiple_select (interface w) ∧
  missing_value (interface w') = missing_value (interface w) ∧
  on_select (interface w') = on_select (interface w) ∧
  factory (interface w') = factory (interface w) ∧
  MIN_WIDTH (interface w') = MIN_WIDTH (interface w) ∧
  MIN_HEIGHT (interface w') = MIN_HEIGHT (interface w) ∧
  intrinsic_width (interface w') = intrinsic_width (interface w) ∧
  intrinsic_height (interface w') = intrinsic_height (interface w).
Proof. by repeat split. Qed.

(** What a selection change leaves alone, in all cases. *)
Lemma selectionDidChange_keeps w notification :
  let w' := (TogaTable.tableViewSelectionDidChange_ notification w).1 in
  rows w' = rows w ∧ native w' = native w ∧ table w' = table w ∧ impl w' = impl w ∧
  datum_attrs w' = datum_attrs w ∧
  headerCell_stringValue w' = headerCell_stringValue w ∧ dataCell w' = dataCell w ∧
  allocated w' = allocated w ∧
  data (interface w') = data (interface w) ∧
  headings (interface w') = headings (interface w) ∧
  _accessors (interface w') = _accessors (interface w) ∧
  multiple_select (interface w') = multiple_select (interface w) ∧
  missing_value (interface w') = missing_value (interface w) ∧
  on_select (interface w') = on_select (interface w) ∧
  factory (interface w') = factory (interface w) ∧
  MIN_WIDTH (interface w') = MIN_WIDTH (interface w) ∧
  MIN_HEIGHT (interface w') = MIN_HEIGHT (interface w) ∧
  intrinsic_width (interface w') = intrinsic_width (interface w) ∧
  intrinsic_height (interface w') = intrinsic_height (interface w).
Proof.
  intros w'. unfold w'. rewrite selectionDidChange_store.
  case_decide; [|by repeat split].
  destruct (active_row w) as [selected|]; [|apply selection_stored_frame].
  destruct (emit_all_frame (callback w selected)
              (set_interface (set__selection (aggregate w)) w))
    as (-> & -> & -> & -> & -> & -> & -> & -> & ->).
  apply selection_stored_frame.
Qed.

(** X10: a selection change touches [interface._selection] and calls the
    handler, nothing more: whether it returns or raises, the data, the rows
    and their caches, the render objects, the columns and identifiers of the
    adapter, the native views and every other field of the interface are as
    they were. *)
Theorem selection_change_frame (w : World) :
  let w' := (TogaTable.tableViewSelectionDidChange_
               TogaTable.NSTableViewSelectionDidChangeNotification w).1 in
  rows w' = rows w ∧ native w' = native w ∧ table w' = table w ∧ impl w' = impl w ∧
  datum_attrs w' = datum_attrs w ∧
  headerCell_stringValue w' = headerCell_stringValue w ∧ dataCell w' = dataCell w ∧
  allocated w' = allocated w ∧
  data (interface w') = data (interface w) ∧
  headings (interface w') = headings (interface w) ∧
  _accessors (interface w') = _accessors (interface w) ∧
  multiple_select (interface w') = multiple_select (interface w) ∧
  missing_value (interface w') = missing_value (interface w) ∧
  on_select (interface w') = on_select (interface w) ∧
  factory (interface w') = factory (interface w) ∧
  MIN_WIDTH (interface w') = MIN_WIDTH (interface w) ∧
  MIN_HEIGHT (interface w') = MIN_HEIGHT (interface w) ∧
  intrinsic_width (interface w') = intrinsic_width (interface w) ∧
  intrinsic_height (interface w') = intrinsic_height (interface w).
Proof. apply selectionDidChange_keeps. Qed.

Lemma ascending_singleton i : ascending {[i]} = [i].
Proof. unfold ascending. by rewrite elements_singleton. Qed.

(** X11: with one row selected, which is the active row, and no
    [multiple_select], the two readings of the selection agree:
    [interface._selection] becomes that row and [on_select] is called once,
    with that row. *)
Theorem selection_change_single_row
    (w : World) (notification : TogaTable.NSNotification) (i : N) (r : nat)
    (handler : string) :
  multiple_select (interface w) = false →
  selectedRowIndexes (table w) = {[i]} →
  selectedRow (table w) = Z.of_N i →
  data_lookup w (Z.of_N i) = Some r →
  on_select (interface w) = Some handler →
  ∃ w',
    TogaTable.tableViewSelectionDidChange_ notification w = (w', Return tt) ∧
    _selection (interface w') = SelRow r ∧
    events w' = events w ++ [call_on_select handler (Some r)].
Proof.
  intros Hm Hs Ha Hr Hh.
  assert (valid_selection w) as Hv.
  { unfold valid_selection. rewrite Hs, elements_singleton.
    constructor; [by eexists|constructor]. }
  assert (active_row w = Some (Some r)) as Hact.
  { unfold active_row. rewrite Ha, bool_decide_false by lia. by rewrite Hr. }
  rewrite (selectionDidChange_run _ _ _ Hv Hact).
  eexists. split; [reflexivity|]. split.
  - rewrite interface_emit_all. cbn. unfold aggregate.
    rewrite Hm, Hs, ascending_singleton. unfold rows_of. cbn. by rewrite Hr.
  - rewrite events_emit_all. unfold callback. by rewrite Hh.
Qed.

Lemma selection_change_single_row_witness :
  let w := select {[3]}%N 3 (example_world false) in
  ∃ w',
    TogaTable.tableViewSelectionDidChange_
      TogaTable.NSTableViewSelectionDidChangeNotification w = (w', Return tt) ∧
    _selection (interface w') = SelRow 13 ∧
    events w' = events w ++ [call_on_select "on_select" (Some 13%nat)].
Proof.
  intros w.
  by apply (selection_change_single_row w
              TogaTable.NSTableViewSelectionDidChangeNotification 3%N 13 "on_select").
Defined.

(** ** Columns, over any calls *)

(** The store after [remove_column], in all cases. *)
Lemma remove_column_store w accessor :
  (Table.remove_column accessor w).1 =
  match column_identifiers (impl w) !! accessor with
  | None => w
  | Some i =>
      let column := NSTableView.tableColumnWithIdentifier i (tableColumns (table w)) in
      let w1 := set_table (set_tableColumns (NSTableView.removeTableColumn column)) w in
      match column ≫= λ c, list_remove c (columns (impl w)) with
      | Some l =>
          emit sizeToFit
            (set_impl (set_column_identifiers (delete accessor))
               (set_impl (set_columns (λ _, l)) w1))
      | None => w1
      end
  end.
Proof.
  destruct (column_identifiers (impl w) !! accessor) as [i|] eqn:Hi;
    [|by rewrite remove_column_missing].
  cbn zeta.
  destruct (NSTableView.tableColumnWithIdentifier i (tableColumns (table w)) ≫=
            λ c, list_remove c (columns (impl w))) as [l|] eqn:Hl.
  - destruct (NSTableView.tableColumnWithIdentifier i (tableColumns (table w)))
      as [c|] eqn:Hc; [|done].
    by rewrite (remove_column_run _ _ _ _ _ Hi Hc Hl).
  - unfold Table.remove_column.
    rewrite (bind_return _ _ _ _ _ (get_run _)), Hi.
    erewrite bind_return by reflexivity.
    rewrite (bind_return _ _ _ _ _ (get_run _)).
    erewrite bind_return by reflexivity.
    rewrite (bind_return _ _ _ _ _ (get_run _)).
    change (columns (impl (set_table _ w))) with (columns (impl w)).
    by rewrite Hl.
Qed.

(** The column the native table finds is its first one of that identifier. *)
Lemma find_column_Some i l c :
  NSTableView.tableColumnWithIdentifier i l = Some c →
  ∃ l1 l2, l = l1 ++ c :: l2 ∧ identifier c = i ∧ Forall (λ x, identifier x ≠ i) l1.
Proof.
  induction l as [|y l IH]; cbn; [done|].
  case_decide as Hy.
  - intros [= <-]. by exists [], l.
  - intros Hc. destruct (IH Hc) as (l1 & l2 & -> & Hi & Hl1).
    exists (y :: l1), l2. repeat split; [done|]. by constructor.
Qed.

Lemma find_column_None i l :
  NSTableView.tableColumnWithIdentifier i l = None → Forall (λ x, identifier x ≠ i) l.
Proof.
  induction l as [|y l IH]; cbn; [constructor|].
  case_decide as Hy; [done|]. intros Hn. constructor; [done|]. by apply IH.
Qed.

(** Among objects that are all different, [remove] takes out the very
    object it is given. *)
Lemma list_remove_middle l1 c l2 :
  NoDup (address <$> l1 ++ c :: l2) → list_remove c (l1 ++ c :: l2) = Some (l1 ++ l2).
Proof.
  induction l1 as [|y l1 IH]; cbn.
  - intros _. unfold same_object. by rewrite bool_decide_true.
  - intros [Hy Hnd]%NoDup_cons. unfold same_object.
    rewrite bool_decide_false.
    + by rewrite IH.
    + intros Heq. apply Hy. rewrite Heq, fmap_app. apply elem_of_app. right. left.
Qed.

Lemma columns_ok_with_column heading accessor w :
  columns_ok w → columns_ok (with_column heading accessor w).
Proof.
  intros (Hw & Hid & Hnd). split; [by apply wf_with_column|]. split.
  - intros a i. cbn. rewrite lookup_insert. case_decide as Ha.
    + subst a. intros [= <-]. split; [done|].
      apply Exists_app. right. by left.
    + intros Hi. destruct (Hid a i Hi) as [-> Hex]. split; [done|].
      apply Exists_app. by left.
  - cbn. rewrite fmap_app. apply NoDup_app. split; [done|]. split.
    + intros x Hx [->|Hx']%elem_of_cons; [|by apply elem_of_nil in Hx'].
      apply list_elem_of_fmap in Hx as (c & Hc & Hin).
      destruct Hw as [_ Hall]. rewrite Forall_forall in Hall.
      specialize (Hall c Hin). cbn in Hc. lia.
    + cbn. apply NoDup_singleton.
Qed.

Lemma columns_ok_remove_column accessor w :
  columns_ok w → columns_ok (Table.remove_column accessor w).1.
Proof.
  intros (Hw & Hid & Hnd). split; [by apply wf_remove_column|].
  rewrite remove_column_store.
  destruct (column_identifiers (impl w) !! accessor) as [i|] eqn:Hi; [|done].
  cbn zeta.
  destruct (NSTableView.tableColumnWithIdentifier i (tableColumns (table w)))
    as [c|] eqn:Hc; [|done]. cbn [mbind option_bind].
  destruct Hw as [Hs Hal]. rewrite Hs in Hc.
  destruct (find_column_Some _ _ _ Hc) as (l1 & l2 & Hl & Hci & Hl1).
  rewrite Hl in Hnd |- *. rewrite (list_remove_middle _ _ _ Hnd).
  destruct (Hid accessor i Hi) as [-> _].
  split.
  - intros a j. cbn. rewrite lookup_delete. case_decide as Ha; [done|].
    intros Hj. destruct (Hid a j Hj) as [-> Hex]. split; [done|].
    rewrite Hl in Hex. apply Exists_app in Hex as [Hex|Hex].
    + apply Exists_app. by left.
    + apply Exists_cons in Hex as [Hex|Hex].
      * rewrite Hci in Hex. by injection Hex as ->.
      * apply Exists_app. by right.
  - cbn. rewrite fmap_app in Hnd |- *. cbn in Hnd.
    apply NoDup_app in Hnd as (H1 & H2 & H3). apply NoDup_cons in H3 as [_ H3].
    apply NoDup_app. split; [done|]. split; [|done].
    intros x Hx Hx'. apply (H2 x Hx). by right.
Qed.

Lemma columns_ok_frame w w' :
  tableColumns (table w') = tableColumns (table w) →
  impl w' = impl w →
  (allocated w ≤ allocated w')%nat →
  columns_ok w → columns_ok w'.
Proof.
  intros Ht Hi Hal ([Hs Ha] & Hid & Hnd). unfold columns_ok, identified.
  rewrite Hi. split; [|done]. split; [by rewrite Ht, Hi|].
  rewrite Hi. eapply Forall_impl; [exact Ha|]. cbn. lia.
Qed.

Lemma numberOfRows_keeps w : (TogaTable.numberOfRowsInTableView_ w).1 = w.
Proof.
  unfold TogaTable.numberOfRowsInTableView_. rewrite bind_unfold, get_run.
  by destruct (data (interface w)) as [[|r l]|].
Qed.

Lemma columns_ok_perform c w : columns_ok w → columns_ok (perform c w).
Proof.
  intros Hok.
  destruct c as [source|index item|item|item| |handler|row| |heading accessor|accessor|
                 |column row| | ]; cbn [perform];
    try (by apply (columns_ok_frame w)).
  - rewrite add_column_run.
    apply (columns_ok_frame (with_column heading accessor w)); [done..|].
    by apply columns_ok_with_column.
  - by apply columns_ok_remove_column.
  - by rewrite numberOfRows_keeps.
  - destruct (objectValue_keeps w column row) as (_ & _ & Ht & Hi & _ & _ & _ & _ & _ & Hal).
    apply (columns_ok_frame w); [by rewrite Ht|done..].
  - destruct (selectionDidChange_keeps w TogaTable.NSTableViewSelectionDidChangeNotification)
      as (_ & _ & Ht & Hi & _ & _ & _ & Hal & _).
    apply (columns_ok_frame w); [by rewrite Ht|done|lia|done].
Qed.

Lemma columns_ok_perform_all cs w : columns_ok w → columns_ok (perform_all cs w).
Proof.
  revert w. induction cs as [|c cs IH]; intros w Hok; [done|].
  cbn. by apply IH, columns_ok_perform.
Qed.

Lemma columns_ok_with_columns l w : columns_ok w → columns_ok (with_columns l w).
Proof.
  revert w. induction l as [|[h a] l IH]; intros w Hok; [done|].
  rewrite with_columns_cons. by apply IH, columns_ok_with_column.
Qed.

Lemma columns_ok_create w : columns_ok (Table.create w).1.
Proof.
  destruct (create_fields w) as (_ & Hi & Ht & _ & _ & _ & Hal & _).
  set (l := zip _ _) in *.
  apply (columns_ok_frame (with_columns l (before_columns w))); [done|done|lia|].
  apply columns_ok_with_columns.
  split; [split; [done|constructor]|]. split; [|constructor].
  intros a i. cbn. by rewrite lookup_empty.
Qed.

(** X12: after [create] and any calls of the methods of this file, in any
    order and whether they return or raise, the columns of the native table
    are the columns of the adapter's list, each a different object, and
    every accessor of [column_identifiers] is mapped to its own identifier
    and has a column of that identifier in the list. *)
Theorem columns_stay_in_sync (w : World) (cs : list call) :
  let w' := perform_all cs (Table.create w).1 in
  tableColumns (table w') = columns (impl w') ∧
  NoDup (address <$> columns (impl w')) ∧
  ∀ a i, column_identifiers (impl w') !! a = Some i →
         i = at_ a ∧ Exists (λ c, identifier c = i) (columns (impl w')).
Proof.
  intros w'.
  destruct (columns_ok_perform_all cs _ (columns_ok_create w)) as ([Hs _] & Hid & Hnd).
  done.
Qed.

(** ** Removing columns *)

Lemma find_column_app i l l' :
  Forall (λ x, identifier x ≠ i) l →
  NSTableView.tableColumnWithIdentifier i (l ++ l') =
  NSTableView.tableColumnWithIdentifier i l'.
Proof.
  induction 1 as [|x l Hx _ IH]; cbn; [done|]. by rewrite decide_False.
Qed.

Lemma list_remove_app c l l' :
  Forall (λ x, address x ≠ address c) l →
  list_remove c (l ++ l') = (l ++.) <$> list_remove c l'.
Proof.
  induction 1 as [|x l Hx _ IH]; cbn.
  - by destruct (list_remove c l').
  - unfold same_object. rewrite bool_decide_false by done. rewrite IH.
    by destruct (list_remove c l').
Qed.

(** What [remove_column] does for an accessor that has an identifier. *)
Lemma remove_column_first (w : World) (accessor : string) :
  columns_ok w →
  is_Some (column_identifiers (impl w) !! accessor) →
  ∃ w' l1 c l2,
    Table.remove_column accessor w = (w', Return tt) ∧
    columns (impl w) = l1 ++ c :: l2 ∧
    identifier c = at_ accessor ∧
    Forall (λ x, identifier x ≠ at_ accessor) l1 ∧
    columns (impl w') = l1 ++ l2 ∧
    tableColumns (table w') = l1 ++ l2 ∧
    column_identifiers (impl w') = delete accessor (column_identifiers (impl w)) ∧
    events w' = events w ++ [sizeToFit].
Proof.
  intros ([Hs Hal] & Hid & Hnd) [i Hi].
  destruct (Hid accessor i Hi) as [-> Hex].
  destruct (NSTableView.tableColumnWithIdentifier (at_ accessor) (tableColumns (table w)))
    as [c|] eqn:Hc.
  - rewrite Hs in Hc.
    destruct (find_column_Some _ _ _ Hc) as (l1 & l2 & Hl & Hci & Hl1).
    rewrite <- Hs in Hc.
    assert (list_remove c (columns (impl w)) = Some (l1 ++ l2)) as Hrm.
    { rewrite Hl. apply list_remove_middle. by rewrite <- Hl. }
    rewrite (remove_column_run _ _ _ _ _ Hi Hc Hrm).
    eexists _, l1, c, l2. split; [reflexivity|]. repeat split; try done.
    cbn. rewrite Hs, Hrm. done.
  - apply find_column_None in Hc. rewrite Hs in Hc.
    apply Forall_Exists_neg in Hc. done.
Qed.

(** X13: in a store reached from [create] by calls of the methods of this
    file, [remove_column] of an accessor that has an identifier returns (it
    raises neither [KeyError] nor [ValueError]): it takes the first column
    of that identifier, and no other, out of the native table and out of the
    adapter's list, forgets the identifier, and sends one [sizeToFit]. *)
Theorem remove_column_removes_first (w : World) (accessor : string) :
  columns_ok w →
  is_Some (column_identifiers (impl w) !! accessor) →
  ∃ w' l1 c l2,
    Table.remove_column accessor w = (w', Return tt) ∧
    columns (impl w) = l1 ++ c :: l2 ∧
    identifier c = at_ accessor ∧
    Forall (λ x, identifier x ≠ at_ accessor) l1 ∧
    columns (impl w') = l1 ++ l2 ∧
    tableColumns (table w') = l1 ++ l2 ∧
    column_identifiers (impl w') = delete accessor (column_identifiers (impl w)) ∧
    events w' = events w ++ [sizeToFit].
Proof. apply remove_column_first. Qed.

Lemma remove_column_removes_first_witness :
  ∃ w' l1 c l2,
    Table.remove_column "age" (example_world false) = (w', Return tt) ∧
    columns (impl (example_world false)) = l1 ++ c :: l2 ∧
    identifier c = at_ "age" ∧
    Forall (λ x, identifier x ≠ at_ "age") l1 ∧
    columns (impl w') = l1 ++ l2 ∧
    tableColumns (table w') = l1 ++ l2 ∧
    column_identifiers (impl w') =
      delete "age" (column_identifiers (impl (example_world false))) ∧
    events w' = events (example_world false) ++ [sizeToFit].
Proof.
  apply (remove_column_removes_first (example_world false) "age").
  - apply columns_ok_create.
  - by eexists.
Defined.

(** X14: a column added twice under one accessor can be removed once only.
    After two [add_column] with the accessor and one [remove_column], the
    first of the two columns is gone, the second is still in the native
    table and in the adapter's list, and the identifier is forgotten: a
    further [remove_column] raises [KeyError] and leaves the column where it
    is. *)
Theorem duplicate_accessor_leaves_column (w : World) (heading1 heading2 accessor : string) :
  wf w → tracked w accessor = false →
  ∃ w',
    (Table.add_column heading1 accessor;; Table.add_column heading2 accessor;;
     Table.remove_column accessor) w = (w', Return tt) ∧
    columns (impl w') =
      columns (impl w) ++ [{| address := S (S (allocated w)); identifier := at_ accessor |}] ∧
    tableColumns (table w') = columns (impl w') ∧
    column_identifiers (impl w') = column_identifiers (impl w) ∧
    Table.remove_column accessor w' = (w', Raise (Exn KeyError [VStr accessor])).
Proof.
  intros [Hs Ha] [Hid Hcols]%untracked_inv.
  set (c1 := {| address := allocated w; identifier := at_ accessor |}).
  set (c2 := {| address := S (S (allocated w)); identifier := at_ accessor |}).
  assert (Forall (λ x, address x ≠ address c1) (columns (impl w))) as Hfresh.
  { eapply Forall_impl; [exact Ha|]. cbn. lia. }
  eexists. split.
  - rewrite bind_unfold, add_column_run, bind_unfold, add_column_run.
    eapply (remove_column_run _ _ (at_ accessor) c1 (columns (impl w) ++ [c2])).
    + cbn. apply lookup_insert_eq.
    + cbn. rewrite Hs, <- app_assoc. rewrite find_column_app by done.
      cbn. by rewrite decide_True.
    + cbn. rewrite <- app_assoc, list_remove_app by done.
      cbn. unfold same_object. by rewrite bool_decide_true.
  - cbn. rewrite Hs, <- app_assoc, list_remove_app by done.
    cbn. unfold same_object. rewrite bool_decide_true by done. cbn.
    assert (delete accessor (<[accessor:=at_ accessor]> (<[accessor:=at_ accessor]>
              (column_identifiers (impl w)))) = column_identifiers (impl w)) as Hdel.
    { rewrite !delete_insert_eq. by apply delete_id. }
    repeat split; try done.
    apply remove_column_missing. cbn. by rewrite Hdel.
Qed.

Lemma duplicate_accessor_leaves_column_witness :
  ∃ w',
    (Table.add_column "City" "city";; Table.add_column "Town" "city";;
     Table.remove_column "city") (example_world false) = (w', Return tt) ∧
    columns (impl w') =
      columns (impl (example_world false)) ++
      [{| address := S (S (allocated (example_world false))); identifier := at_ "city" |}] ∧
    tableColumns (table w') = columns (impl w') ∧
    column_identifiers (impl w') = column_identifiers (impl (example_world false)) ∧
    Table.remove_column "city" w' = (w', Raise (Exn KeyError [VStr "city"])).
Proof.
  apply (duplicate_accessor_leaves_column (example_world false) "City" "Town" "city").
  - apply wf_create.
  - vm_compute. reflexivity.
Defined.

(** ** The caches, over any calls *)

Lemma cached_with_cache_miss w r0 col0 r col :
  cached w r0 col0 = None →
  cached (with_cache w r0 col0) r col =
  if decide (r = r0 ∧ col = col0) then Some (allocated w) else cached w r col.
Proof.
  intros Hmiss. unfold with_cache. rewrite Hmiss.
  unfold cached at 1. rewrite row_at_set_allocated, row_at_insert.
  destruct (decide (r0 = r)) as [->|Hr]; cbn.
  - rewrite dict_get_set. destruct (decide (col0 = col)) as [->|Hc].
    + by rewrite decide_True.
    + rewrite decide_False by (intros [_ ?]; congruence).
      unfold cached. by destruct (_impl (row_at w r)).
  - by rewrite decide_False by (intros [? _]; congruence).
Qed.

Lemma caches_ok_frame w w' :
  (∀ r col, cached w' r col = cached w r col) →
  (allocated w ≤ allocated w')%nat →
  caches_ok w → caches_ok w'.
Proof.
  intros Hc Hal [Hfresh Hinj]. split.
  - intros r col d. rewrite Hc. intros Hd. specialize (Hfresh _ _ _ Hd). lia.
  - intros r col r' col' d. rewrite !Hc. apply Hinj.
Qed.

Lemma caches_ok_rows w w' :
  rows w' = rows w → (allocated w ≤ allocated w')%nat → caches_ok w → caches_ok w'.
Proof.
  intros Hr. apply caches_ok_frame. intros r col. unfold cached, row_at. by rewrite Hr.
Qed.

Lemma caches_ok_with_cache w r0 col0 : caches_ok w → caches_ok (with_cache w r0 col0).
Proof.
  intros [Hfresh Hinj].
  destruct (cached w r0 col0) as [d0|] eqn:Hd0;
    [by rewrite (with_cache_hit _ _ _ _ Hd0)|].
  assert (allocated (with_cache w r0 col0) = S (allocated w)) as Hal
    by (by rewrite allocated_with_cache, Hd0).
  split.
  - intros r col d. rewrite cached_with_cache_miss, Hal by done.
    case_decide; [intros [= <-]; lia|]. intros Hd. specialize (Hfresh _ _ _ Hd). lia.
  - intros r col r' col' d. rewrite !cached_with_cache_miss by done.
    destruct (decide (r = r0 ∧ col = col0)) as [[-> ->]|H1];
      destruct (decide (r' = r0 ∧ col' = col0)) as [[-> ->]|H2]; try done.
    + intros [= <-] Hd. specialize (Hfresh _ _ _ Hd). lia.
    + intros Hd [= <-]. specialize (Hfresh _ _ _ Hd). lia.
    + apply Hinj.
Qed.

Lemma cached_after_objectValue w column row r0 :
  data_lookup w row = Some r0 →
  let w' := (TogaTable.tableView_objectValueForTableColumn_row_ column row w).1 in
  (∀ r col, cached w' r col = cached (with_cache w r0 (str_of (identifier column))) r col) ∧
  allocated w' = allocated (with_cache w r0 (str_of (identifier column))).
Proof.
  intros Hr w'. destruct (objectValue_rows w column row r0 Hr) as [Hro Hal].
  fold w' in Hro, Hal. split; [|done].
  intros r col. unfold cached, row_at. by rewrite Hro.
Qed.

Lemma caches_ok_perform c w : caches_ok w → caches_ok (perform c w).
Proof.
  intros Hok.
  destruct c as [source|index item|item|item| |handler|row| |heading accessor|accessor|
                 |column row| | ]; cbn [perform];
    try (by apply (caches_ok_rows w)).
  - rewrite add_column_run. apply (caches_ok_rows w); [done|cbn; lia|done].
  - rewrite remove_column_store.
    destruct (column_identifiers (impl w) !! accessor); [|done]. cbn zeta.
    destruct (_ ≫= _); by apply (caches_ok_rows w).
  - by rewrite numberOfRows_keeps.
  - destruct (data_lookup w row) as [r0|] eqn:Hr.
    + destruct (cached_after_objectValue w column row r0 Hr) as [Hc Hal].
      eapply caches_ok_frame; [exact Hc|by rewrite Hal|].
      by apply caches_ok_with_cache.
    + by rewrite objectValue_store, Hr.
  - destruct (selectionDidChange_keeps w TogaTable.NSTableViewSelectionDidChangeNotification)
      as (Hr & _ & _ & _ & _ & _ & _ & Hal & _).
    apply (caches_ok_rows w); [done|lia|done].
Qed.

Lemma caches_ok_perform_all cs w : caches_ok w → caches_ok (perform_all cs w).
Proof.
  revert w. induction cs as [|c cs IH]; intros w Hok; [done|].
  cbn. by apply IH, caches_ok_perform.
Qed.

(** X15: the calls of the methods of this file keep the caches of the rows
    sound: if every cached render object is an object that exists and no
    two cells (row object and column identifier) share one, the same holds
    after any calls, in any order and whether they return or raise. *)
Theorem caches_stay_unshared (w : World) (cs : list call) :
  caches_ok w → caches_ok (perform_all cs w).
Proof. apply caches_ok_perform_all. Qed.

Lemma example_caches_ok multiple : caches_ok (example_world multiple).
Proof.
  assert (∀ r col, cached (example_world multiple) r col = None) as Hnone.
  { intros r col. unfold cached, row_at.
    assert (rows (example_world multiple) = example_rows) as ->
      by (destruct multiple; vm_compute; reflexivity).
    destruct (example_rows !! r) as [x|] eqn:E; [|done]. cbn.
    unfold example_rows in E.
    repeat (apply lookup_insert_Some in E as [[_ <-]|[_ E]]; [done|]).
    by apply lookup_singleton_Some in E as [_ <-]. }
  split.
  - intros r col d. by rewrite Hnone.
  - intros r col r' col' d. by rewrite Hnone.
Qed.

(** Cells of the example table rendered, a column added and one removed, a
    cell rendered again. *)
Lemma caches_stay_unshared_witness :
  caches_ok
    (perform_all
       [call_objectValue name_column 0; call_objectValue age_column 0;
        call_add_column "City" "city"; call_objectValue name_column 2;
        call_remove_column "age"; call_objectValue name_column 0]
       (example_world false)).
Proof.
  apply (caches_stay_unshared (example_world false)).
  apply example_caches_ok.
Defined.

(** X16: on a cache miss the data source method gives the cell a render
    object of its own: the object is in no row's cache before the call, and
    after the call it is under this row and column identifier only. *)
Theorem new_render_object_is_unshared
    (w : World) (column : NSTableColumn) (row : Z) (r : nat) :
  caches_ok w →
  data_lookup w row = Some r →
  let col := str_of (identifier column) in
  let w' := (TogaTable.tableView_objectValueForTableColumn_row_ column row w).1 in
  cached w r col = None →
  ∃ datum,
    cached w' r col = Some datum ∧
    (∀ r' col', cached w r' col' ≠ Some datum) ∧
    (∀ r' col', cached w' r' col' = Some datum → r' = r ∧ col' = col).
Proof.
  intros Hok Hr col w' Hmiss.
  destruct (objectValue_caches w column row r Hr) as [Hc _].
  fold col in Hc. fold w' in Hc.
  assert (datum_of w r col = allocated w) as Hd
    by (unfold datum_of; by rewrite Hmiss).
  rewrite Hd in Hc. exists (allocated w). split; [done|]. split.
  - intros r' col' Hc'. destruct Hok as [Hfresh _].
    specialize (Hfresh _ _ _ Hc'). lia.
  - intros r' col' Hc'.
    assert (caches_ok w') as [_ Hinj]
      by (by apply (caches_ok_perform (call_objectValue column row))).
    by apply (Hinj r' col' r col (allocated w)).
Qed.

Lemma new_render_object_is_unshared_witness :
  let w := perform (call_objectValue age_column 1) (example_world false) in
  let w' := (TogaTable.tableView_objectValueForTableColumn_row_ name_column 1 w).1 in
  ∃ datum,
    cached w' 11 "name" = Some datum ∧
    (∀ r' col', cached w r' col' ≠ Some datum) ∧
    (∀ r' col', cached w' r' col' = Some datum → r' = 11%nat ∧ col' = "name").
Proof.
  intros w.
  apply (new_render_object_is_unshared w name_column 1 11).
  - apply caches_ok_perform, example_caches_ok.
  - reflexivity.
  - vm_compute. reflexivity.
Defined.

(** X17: removing a column and adding it again does not put it back where
    it was: in a store reached from [create] by calls of the methods of this
    file, [remove_column] then [add_column] of an accessor that has an
    identifier return, the first column of that identifier is gone, a new
    column of that identifier is at the end of the adapter's list and of the
    native table, and [column_identifiers] is what it was. *)
Theorem remove_then_add_moves_to_end (w : World) (heading accessor : string) :
  columns_ok w →
  is_Some (column_identifiers (impl w) !! accessor) →
  ∃ w' l1 c l2,
    (Table.remove_column accessor;; Table.add_column heading accessor) w = (w', Return tt) ∧
    columns (impl w) = l1 ++ c :: l2 ∧
    identifier c = at_ accessor ∧
    Forall (λ x, identifier x ≠ at_ accessor) l1 ∧
    columns (impl w') =
      l1 ++ l2 ++ [{| address := allocated w; identifier := at_ accessor |}] ∧
    tableColumns (table w') = columns (impl w') ∧
    column_identifiers (impl w') = column_identifiers (impl w).
Proof.
  intros Hok Hi.
  destruct (remove_column_first w accessor Hok Hi)
    as (w1 & l1 & c & l2 & Hrun & Hl & Hc & Hl1 & Hcols & Htab & Hids & _).
  assert (allocated w1 = allocated w) as Hal.
  { replace w1 with (Table.remove_column accessor w).1 by (by rewrite Hrun).
    rewrite remove_column_store.
    destruct (column_identifiers (impl w) !! accessor); [|done]. cbn zeta.
    by destruct (_ ≫= _). }
  exists (Table.add_column heading accessor w1).1, l1, c, l2.
  split; [by rewrite bind_unfold, Hrun, add_column_run|].
  repeat split; try done; rewrite add_column_run; cbn.
  - by rewrite Hcols, Hal, <- app_assoc.
  - by rewrite Hcols, Htab.
  - rewrite Hids, insert_delete_eq. apply insert_id.
    destruct Hi as [i Hi]. destruct Hok as (_ & Hid & _).
    by destruct (Hid accessor i Hi) as [-> _].
Qed.

Lemma remove_then_add_moves_to_end_witness :
  let w := example_world false in
  ∃ w' l1 c l2,
    (Table.remove_column "name";; Table.add_column "Name" "name") w = (w', Return tt) ∧
    columns (impl w) = l1 ++ c :: l2 ∧
    identifier c = at_ "name" ∧
    Forall (λ x, identifier x ≠ at_ "name") l1 ∧
    columns (impl w') =
      l1 ++ l2 ++ [{| address := allocated w; identifier := at_ "name" |}] ∧
    tableColumns (table w') = columns (impl w') ∧
    column_identifiers (impl w') = column_identifiers (impl w).
Proof.
  intros w. apply (remove_then_add_moves_to_end w "Name" "name").
  - apply columns_ok_create.
  - by eexists.
Defined.

Example remove_then_add_example :
  columns (impl ((Table.remove_column "name";; Table.add_column "Name" "name")
                   (example_world false)).1) =
  [age_column; {| address := 4; identifier := at_ "name" |}].
Proof. vm_compute. reflexivity. Qed.
